(** * COVID19_EMD_Analysis: the decomposition and spectral-analysis engine

    A shallow embedding of [src/emd_analyzer.py] (classes [EMD],
    [HilbertTransform] and [EMDAnalyzer]) and the properties of it that the
    specification states.

    Numbers.  The program computes on IEEE doubles.  Here a finite double
    is an exact rational in lowest terms ([Qc], so that equal numbers are
    equal terms), and arithmetic is exact: rounding is not modelled.  The
    decimal literals of the source ([0.1], [1e-10]) are the rationals they
    denote.  A quotient with a zero denominator, which numpy answers with
    [nan] or [inf], is not a rational: [np_div] returns [None] there.

    Arrays.  A numpy array is an [ndarray]: one-dimensional, or
    two-dimensional with its shape kept beside the rows (so that the
    transpose of a [k x 0] array is still known to be [0 x k]).

    Exceptions.  A Python call returns a value or raises: [outcome]. *)

From Stdlib Require Import QArith Qcanon Qcabs Lia Lqa.
From Stdlib Require Import String Ascii.
From stdpp Require Import base option list strings gmap.

(** ** Python outcomes *)

Inductive exn : Set :=
  | ValueError
  | IndexError
  | ZeroDivisionError.

Inductive outcome (A : Type) : Type :=
  | Returned (a : A)
  | Raised (e : exn).

Arguments Returned {A} a.
Arguments Raised {A} e.

#[global] Instance outcome_ret : MRet outcome := fun A a => Returned a.

#[global] Instance outcome_bind : MBind outcome := fun A B f m =>
  match m with
  | Returned a => f a
  | Raised e => Raised e
  end.

(** [for x in xs: st = body x st], stopping at the first exception. *)
Fixpoint for_each {A S : Type} (xs : list A) (body : A -> S -> outcome S)
    (st : S) : outcome S :=
  match xs with
  | [] => Returned st
  | x :: xs' => st' ← body x st; for_each xs' body st'
  end.

(** [range(lo, hi)] for non-negative bounds; empty when [hi <= lo]. *)
Definition range (lo hi : nat) : list nat := seq lo (hi - lo).

(** Python's scalar [a / b] on floats raises on a zero divisor. *)
Definition py_div (a b : Qc) : outcome Qc :=
  if bool_decide (b = 0%Qc) then Raised ZeroDivisionError else Returned (a / b)%Qc.

(** ** numpy *)

(** [x < y] on numbers, as a boolean. *)
Definition Qlt_bool (x y : Qc) : bool := bool_decide (x < y)%Qc.

Inductive ndarray : Type :=
  | Arr1 (v : list Qc)
  | Arr2 (nrows ncols : nat) (rows : list (list Qc)).

(** The representation invariant of a two-dimensional array. *)
Definition wf_ndarray (a : ndarray) : Prop :=
  match a with
  | Arr1 _ => True
  | Arr2 r c rows => length rows = r /\ Forall (fun row => length row = c) rows
  end.

(** [a.shape] *)
Definition shape (a : ndarray) : list nat :=
  match a with
  | Arr1 v => [length v]
  | Arr2 r c _ => [r; c]
  end.

(** [a.shape[0]] *)
Definition shape0 (a : ndarray) : nat :=
  match a with
  | Arr1 v => length v
  | Arr2 r _ _ => r
  end.

(** [a.shape[1]]: the shape of a one-dimensional array has one entry. *)
Definition shape1 (a : ndarray) : outcome nat :=
  match a with
  | Arr1 _ => Raised IndexError
  | Arr2 _ c _ => Returned c
  end.

(** [n, m = a.shape]: tuple unpacking into two names. *)
Definition unpack_shape (a : ndarray) : outcome (nat * nat) :=
  match shape a with
  | [n; m] => Returned (n, m)
  | _ => Raised ValueError
  end.

(** The array that [np.array] builds from rows of one length. *)
Definition stack (rows : list (list Qc)) : ndarray :=
  match rows with
  | [] => Arr1 []
  | r :: _ => Arr2 (length rows) (length r) rows
  end.

Definition uniform (rows : list (list Qc)) : bool :=
  match rows with
  | [] => true
  | r :: rest => forallb (fun r' => Nat.eqb (length r') (length r)) rest
  end.

(** [np.array(rows)] for a Python list of one-dimensional arrays: the empty
    list gives the one-dimensional empty array (shape [(0,)]); ragged rows
    are refused. *)
Definition np_array (rows : list (list Qc)) : outcome ndarray :=
  if uniform rows then Returned (stack rows) else Raised ValueError.

(** Column [j] of a list of rows. *)
Definition column (j : nat) (rows : list (list Qc)) : list Qc :=
  map (fun row => nth j row 0%Qc) rows.

(** [a.T]: a one-dimensional array is its own transpose. *)
Definition transpose (a : ndarray) : ndarray :=
  match a with
  | Arr1 v => Arr1 v
  | Arr2 r c rows => Arr2 c r (map (fun j => column j rows) (seq 0 c))
  end.

(** The rows of a two-dimensional array; the empty one-dimensional array
    that [np.array([])] gives has none. *)
Definition rows_of (a : ndarray) : list (list Qc) :=
  match a with
  | Arr1 _ => []
  | Arr2 _ _ rows => rows
  end.

(** [a[i]] as a one-dimensional array (a row of a two-dimensional array);
    an element of a one-dimensional array is a scalar, not an array. *)
Definition row_of (a : ndarray) (i : nat) : option (list Qc) :=
  match a with
  | Arr1 _ => None
  | Arr2 _ _ rows => rows !! i
  end.

(** [a[lo:hi, i]] for [0 <= lo]: a slice stops at the end of the array, an
    index does not. *)
Definition col_slice (a : ndarray) (lo hi i : nat) : outcome (list Qc) :=
  match a with
  | Arr1 _ => Raised IndexError
  | Arr2 _ c rows =>
      if Nat.ltb i c then Returned (column i (take (hi - lo) (drop lo rows)))
      else Raised IndexError
  end.

(** [a[:, i]] *)
Definition col_of (a : ndarray) (i : nat) : outcome (list Qc) :=
  match a with
  | Arr1 _ => Raised IndexError
  | Arr2 _ c rows =>
      if Nat.ltb i c then Returned (column i rows) else Raised IndexError
  end.

(** [rows[j][i] = v] on the rows of a two-dimensional array. *)
Definition set_cell (j i : nat) (v : Qc) (rows : list (list Qc)) : list (list Qc) :=
  alter (fun row => <[i := v]> row) j rows.

Definition np_sum (x : list Qc) : Qc := foldr Qcplus 0%Qc x.


(** numpy's [a / b] on scalars: [None] stands for the non-finite result of
    a zero denominator. *)
Definition np_div (a b : Qc) : option Qc :=
  if bool_decide (b = 0%Qc) then None else Some (a / b)%Qc.

(** [np.mean(x)] *)
Definition np_mean (x : list Qc) : option Qc :=
  np_div (np_sum x) (Qc_of_Z (Z.of_nat (length x))).

(** [np.var(x)]: the mean of the squared deviations from the mean. *)
Definition np_var (x : list Qc) : option Qc :=
  m ← np_mean x; np_mean (map (fun xi => (xi - m) * (xi - m))%Qc x).

(** [np.std(x) < t] and [np.std(x) > t] for [0 < t].  The standard deviation
    is the square root of the variance, so it is compared through its
    square; with [nan] (an empty [x]) every comparison is false. *)
Definition np_std_lt (x : list Qc) (t : Qc) : bool :=
  match np_var x with
  | Some v => Qlt_bool v (t * t)
  | None => false
  end.

Definition np_std_gt (x : list Qc) (t : Qc) : bool :=
  match np_var x with
  | Some v => Qlt_bool (t * t) v
  | None => false
  end.

(** [x * y] on one-dimensional arrays, with numpy's broadcasting of a
    one-element operand. *)
Definition np_mul (x y : list Qc) : outcome (list Qc) :=
  if Nat.eqb (length x) (length y) then Returned (zip_with Qcmult x y)
  else match x, y with
       | [a], _ => Returned (map (fun b => a * b)%Qc y)
       | _, [b] => Returned (map (fun a => a * b)%Qc x)
       | _, _ => Raised ValueError
       end.

(** [np.diff(x)] *)
Fixpoint np_diff (x : list Qc) : list Qc :=
  match x with
  | a :: (b :: _) as rest => (b - a)%Qc :: np_diff rest
  | _ => []
  end.

(** ** What the program takes from other packages

    [PyEMD] is present or not; [scipy.signal.hilbert] and numpy's complex
    [abs], [angle] and [unwrap] are not rational functions and stay
    abstract. *)
Record externals : Type := {
  PyEMD_EMD : option (list Qc -> outcome ndarray);
  analytic : Type;
  hilbert : list Qc -> analytic;
  np_abs : analytic -> list Qc;
  np_angle : analytic -> list Qc;
  np_unwrap : list Qc -> list Qc
}.

(** [math.pi], the double nearest to pi. *)
Definition math_pi : Qc := Q2Qc (884279719003555 # 281474976710656).

(** ** class EMD *)

Module EMD.

(** [_sift]: [signal * 0.1] *)
Definition _sift (signal : list Qc) : list Qc :=
  map (fun x => x * Q2Qc 0.1)%Qc signal.

(** The loop [for i in range(10)] of [_simple_emd], with its two [break]s;
    the state is [(imfs, residue)]. *)
Fixpoint sift_loop (fuel : nat) (imfs : list (list Qc)) (residue : list Qc)
    : list (list Qc) * list Qc :=
  match fuel with
  | O => (imfs, residue)
  | S fuel' =>
      if Nat.ltb (length residue) 4 then (imfs, residue)
      else
        let imf := _sift residue in
        if np_std_lt imf (Q2Qc 1e-10) then (imfs, residue)
        else sift_loop fuel' (imfs ++ [imf]) (zip_with Qcminus residue imf)
  end.

(** The Python list [imfs] handed to [np.array] at the end. *)
Definition collected (signal : list Qc) : list (list Qc) :=
  let '(imfs, residue) := sift_loop 10 [] signal in
  if np_std_gt residue (Q2Qc 1e-10) then imfs ++ [residue] else imfs.

Definition _simple_emd (signal : list Qc) : outcome ndarray :=
  np_array (collected signal).

(** [emd]: PyEMD when it can be imported, otherwise [_simple_emd]. *)
Definition emd (E : externals) (signal : list Qc) : outcome ndarray :=
  match PyEMD_EMD E with
  | Some pyemd => pyemd signal
  | None => _simple_emd signal
  end.

End EMD.

(** ** class HilbertTransform *)

Module HilbertTransform.

Section WithExternals.

Variable E : externals.

(** [freq[-1]] *)
Definition last_item (x : list Qc) : outcome Qc :=
  match last x with
  | Some v => Returned v
  | None => Raised IndexError
  end.

(** The body of the loop of [compute_instantaneous_frequency] for one row
    [imfs[i]]: the pair [(freq, amplitude)] that it appends.
    [scipy.signal.hilbert] refuses an empty input. *)
Definition mode_spectrum (dt : Qc) (mode : list Qc) : outcome (list Qc * list Qc) :=
  match mode with
  | [] => Raised ValueError
  | _ =>
      let analytic_signal := hilbert E mode in
      let amplitude := np_abs E analytic_signal in
      let phase := np_unwrap E (np_angle E analytic_signal) in
      inv_dt ← py_div 1 dt;
      let freq := map (fun d => inv_dt * d / (2 * math_pi))%Qc (np_diff phase) in
      tail ← last_item freq;
      let freq := freq ++ [tail] in
      if Nat.ltb (length freq) (length amplitude)
      then Returned (freq, take (length freq) amplitude)
      else if Nat.ltb (length amplitude) (length freq)
      then Returned (take (length amplitude) freq, amplitude)
      else Returned (freq, amplitude)
  end.

(** [hilbert(imfs[i])] needs a row: on a one-dimensional [imfs] the item
    is a scalar and the transform raises. *)
Definition spectrum_step (imfs : ndarray) (dt : Qc) (i : nat)
    (acc : list (list Qc) * list (list Qc))
    : outcome (list (list Qc) * list (list Qc)) :=
  match row_of imfs i with
  | None => Raised IndexError
  | Some mode =>
      '(freq, amplitude) ← mode_spectrum dt mode;
      Returned (acc.1 ++ [freq], acc.2 ++ [amplitude])
  end.

Definition compute_instantaneous_frequency (imfs : ndarray) (dt : Qc)
    : outcome (ndarray * ndarray) :=
  let n_imfs := shape0 imfs in
  '(frequencies, amplitudes) ←
    for_each (range 0 (n_imfs - 1)) (spectrum_step imfs dt) ([], []);
  fa ← np_array frequencies;
  aa ← np_array amplitudes;
  Returned (transpose fa, transpose aa).

End WithExternals.

(** The body of the inner loop of [wafa_smoothing] at mode [i], sample
    [j]; the state is the copy [smoothed_freq]. *)
Definition smooth_cell (frequencies amplitudes : ndarray) (window i j : nat)
    (smoothed_freq : list (list Qc)) : outcome (list (list Qc)) :=
  weights ← col_slice amplitudes (j - window / 2) (j + window / 2 + 1) i;
  freqs ← col_slice frequencies (j - window / 2) (j + window / 2 + 1) i;
  if Qlt_bool 0 (np_sum weights) then
    wf ← np_mul weights freqs;
    Returned (set_cell j i (np_sum wf / np_sum weights)%Qc smoothed_freq)
  else Returned smoothed_freq.

Definition wafa_smoothing (frequencies amplitudes : ndarray) (window : nat)
    : outcome ndarray :=
  let smoothed_freq := rows_of frequencies in
  '(n_samples, n_imfs) ← unpack_shape frequencies;
  smoothed_freq ←
    for_each (range 0 n_imfs) (fun i =>
      for_each (range (window / 2) (n_samples - window / 2))
        (smooth_cell frequencies amplitudes window i))
      smoothed_freq;
  Returned (Arr2 n_samples n_imfs smoothed_freq).

End HilbertTransform.

(** ** class EMDAnalyzer *)

Module EMDAnalyzer.

Import HilbertTransform.

(** The dictionary returned by [_compute_statistics]; an entry is [None]
    when it is not a finite number. *)
Record statistics_t : Type := {
  mean_frequencies : list (option Qc);
  mean_periods : list (option Qc);
  mean_amplitudes : list (option Qc)
}.

(** The dictionary built by [analyze_signal]. *)
Record result_t : Type := {
  signal_name : string;
  original_signal : list Qc;
  imfs : ndarray;
  n_imfs : nat;
  frequencies : ndarray;
  amplitudes : ndarray;
  statistics : statistics_t;
  dt : Qc
}.

(** The analyzer object: [self.emd] and [self.hilbert] hold no state,
    [self.results] is the dictionary of bundles by signal name. *)
Record t : Type := { results : gmap string result_t }.

(** [EMDAnalyzer()] *)
Definition __init__ : t := {| results := ∅ |}.

(** Mean frequency of one mode, weighted by amplitude. *)
Definition mean_freq_of (freq amp : list Qc) : outcome (option Qc) :=
  if Qlt_bool 0 (np_sum amp) then
    wf ← np_mul amp freq;
    Returned (np_div (np_sum wf) (np_sum amp))
  else Returned (Some 0%Qc).

(** Mean period of one mode: [mean_freq > 0] is false on [0] and on [nan],
    and the reciprocal of an infinity is [0]. *)
Definition mean_period_of (mean_freq : option Qc) : option Qc :=
  match mean_freq with
  | Some mf => if Qlt_bool 0 mf then np_div 1 mf else Some 0%Qc
  | None => Some 0%Qc
  end.

(** The body of the loop of [_compute_statistics] for mode [i]. *)
Definition statistics_step (frequencies amplitudes : ndarray) (i : nat)
    (acc : statistics_t) : outcome statistics_t :=
  freq ← col_of frequencies i;
  amp ← col_of amplitudes i;
  mean_freq ← mean_freq_of freq amp;
  Returned {| mean_frequencies := mean_frequencies acc ++ [mean_freq];
              mean_periods := mean_periods acc ++ [mean_period_of mean_freq];
              mean_amplitudes := mean_amplitudes acc ++ [np_mean amp] |}.

Definition _compute_statistics (imfs frequencies amplitudes : ndarray)
    : outcome statistics_t :=
  n_imfs ← shape1 frequencies;
  for_each (range 0 n_imfs) (statistics_step frequencies amplitudes)
    {| mean_frequencies := []; mean_periods := []; mean_amplitudes := [] |}.

Section WithExternals.

Variable E : externals.

(** [analyze_signal]: the bundle and the analyzer with the bundle stored;
    an exception leaves the analyzer as it was. *)
Definition analyze_signal (self : t) (signal : list Qc) (signal_name : string)
    (dt : Qc) : outcome (result_t * t) :=
  imfs ← EMD.emd E signal;
  '(frequencies, amplitudes) ← compute_instantaneous_frequency E imfs dt;
  smoothed_frequencies ← wafa_smoothing frequencies amplitudes 30;
  statistics ← _compute_statistics imfs smoothed_frequencies amplitudes;
  let result := {| signal_name := signal_name;
                   original_signal := signal;
                   imfs := imfs;
                   n_imfs := shape0 imfs;
                   frequencies := smoothed_frequencies;
                   amplitudes := amplitudes;
                   statistics := statistics;
                   dt := dt |} in
  Returned (result, {| results := <[signal_name := result]> (results self) |}).

End WithExternals.

(** [self.results.get(signal_name)] *)
Definition get_analysis_results (self : t) (signal_name : string)
    : option result_t :=
  results self !! signal_name.

(** [list(self.results.keys())]; the order of the keys is not modelled. *)
Definition list_analyzed_signals (self : t) : list string :=
  (map_to_list (results self)).*1.

End EMDAnalyzer.

(** ** class DataLoader ([src/data_loader.py])

    Strings are Rocq strings.  The two files are read before the
    computation starts: [load_tokyo_covid_data] takes the rows that
    [csv.reader] gave for the first file, and for the second file either
    its rows or nothing ([FileNotFoundError], which the source catches).
    Python's [int] on a string is a builtin and stays abstract. *)

Module DataLoader.

(** [s.split(sep)] for a separator of one character: never empty. *)
Fixpoint split (sep : ascii) (s : string) : list string :=
  match s with
  | EmptyString => [EmptyString]
  | String c s' =>
      if Ascii.eqb c sep then EmptyString :: split sep s'
      else match split sep s' with
           | part :: parts => String c part :: parts
           | [] => [String c EmptyString]
           end
  end.

(** The loader object. *)
Record t : Type := {
  data_path : string;
  date_formats : gmap string string
}.

(** [DataLoader(data_path)] *)
Definition __init__ (data_path : string) : t := {|
  data_path := data_path;
  date_formats :=
    list_to_map
      [("01", "Jan"); ("02", "Feb"); ("03", "Mar"); ("04", "Apr");
       ("05", "May"); ("06", "Jun"); ("07", "Jul"); ("08", "Aug");
       ("09", "Sep"); ("10", "Oct"); ("11", "Nov"); ("12", "Dec")]%string
|}.

(** The body of the loop of [_format_dates] for one date. *)
Definition format_date (self : t) (date : string) : string :=
  match split "-" date with
  | [year; month; day] =>
      let month_name := default month (date_formats self !! month) in
      (month_name ++ " " ++ day ++ ", " ++ year)%string
  | _ => date
  end.

Definition _format_dates (self : t) (dates : list string) : list string :=
  foldl (fun formatted date => formatted ++ [format_date self date]) [] dates.

(** [x[-days:]] on a Python list: the last [days] items for a positive
    [days], everything for [days = 0], and all but the first [-days] items
    for a negative [days]. *)
Definition last_days {A : Type} (days : Z) (x : list A) : list A :=
  if (0 <? days)%Z then drop (length x - Z.to_nat days) x
  else drop (Z.to_nat (- days)) x.

(** The dictionary that [load_tokyo_covid_data] returns. *)
Record data_t : Type := {
  dates : list string;
  formatted_dates : list string;
  infections : list Qc;
  hospitalizations : list Qc;
  mild_cases : list Qc;
  severe_cases : list Qc;
  test_positive : list Qc;
  test_numbers : list Qc;
  positivity_rate : list Qc
}.

(** [np.array(x, dtype='float64')] on a list of integers. *)
Definition float_array (x : list Z) : list Qc := map Qc_of_Z x.

Section WithInt.

(** Python's [int(s)]: an integer, or [ValueError]. *)
Variable int : string -> outcome Z.

(** [list_of_rows[i][c]] for a row index within the list. *)
Definition field (rows : list (list string)) (i c : nat) : outcome string :=
  match rows !! i with
  | None => Raised IndexError
  | Some row =>
      match row !! c with
      | None => Raised IndexError
      | Some s => Returned s
      end
  end.

(** [int(list_of_rows[i][c])] *)
Definition int_field (rows : list (list string)) (i c : nat) : outcome Z :=
  s ← field rows i c; int s.

(** [int(list_of_rows[i + 1][c]) - int(list_of_rows[i][c])] *)
Definition increase (rows : list (list string)) (i c : nat) : outcome Z :=
  after ← int_field rows (i + 1) c;
  before ← int_field rows i c;
  Returned (after - before)%Z.

(** The loop that collects the dates. *)
Definition date_step (rows : list (list string)) (i : nat)
    (date : list string) : outcome (list string) :=
  d ← field rows i 3; Returned (date ++ [d]).

(** The loop of the daily increases; the state is
    [(infect, hosp, mild, severe)]. *)
Definition cases_step (rows : list (list string)) (i : nat)
    (st : list Z * list Z * list Z * list Z)
    : outcome (list Z * list Z * list Z * list Z) :=
  let '(infect, hosp, mild, severe) := st in
  a ← increase rows i 4;
  b ← increase rows i 5;
  c ← increase rows i 6;
  d ← increase rows i 7;
  Returned (infect ++ [a], hosp ++ [b], mild ++ [c], severe ++ [d]).

(** The loop over the testing file; the state is
    [(test_num, test_positive, test_pos_rate)]. *)
Definition tests_step (rows : list (list string)) (i : nat)
    (st : list Z * list Z * list Qc) : outcome (list Z * list Z * list Qc) :=
  let '(test_num, test_positive, test_pos_rate) := st in
  p ← int_field rows i 4;
  n ← int_field rows i 6;
  s ← field rows i 6;
  if String.eqb s "0" then
    Returned (test_num ++ [n], test_positive ++ [p], test_pos_rate ++ [0%Qc])
  else
    p' ← int_field rows i 4;
    n' ← int_field rows i 6;
    rate ← py_div (Qc_of_Z p') (Qc_of_Z n');
    Returned (test_num ++ [n], test_positive ++ [p], test_pos_rate ++ [rate]).

(** The testing data: read from the rows of the second file, or zeros, as
    many as there are infections, when the file is not there. *)
Definition load_tests (tests : option (list (list string))) (infect : list Z)
    : outcome (list Z * list Z * list Qc) :=
  match tests with
  | Some rows => for_each (range 1 (length rows)) (tests_step rows) ([], [], [])
  | None =>
      Returned (replicate (length infect) 0%Z,
                replicate (length infect) 0%Z,
                replicate (length infect) 0%Qc)
  end.

Definition load_tokyo_covid_data (self : t) (list_of_rows : list (list string))
    (tests : option (list (list string))) (days : Z) : outcome data_t :=
  date ← for_each (range 1 (length list_of_rows)) (date_step list_of_rows) [];
  '(infect, hosp, mild, severe) ←
    for_each (range 1 (length list_of_rows - 1)) (cases_step list_of_rows)
      ([0%Z], [0%Z], [0%Z], [0%Z]);
  '(test_num, test_positive, test_pos_rate) ← load_tests tests infect;
  let formatted_dates := _format_dates self date in
  Returned {|
    dates := last_days days date;
    formatted_dates := last_days days formatted_dates;
    infections := float_array (last_days days infect);
    hospitalizations := float_array (last_days days hosp);
    mild_cases := float_array (last_days days mild);
    severe_cases := float_array (last_days days severe);
    test_positive := float_array (last_days days test_positive);
    test_numbers := float_array (last_days days test_num);
    positivity_rate := last_days days test_pos_rate
  |}.

End WithInt.

End DataLoader.

(** * The vocabulary of the properties *)

Import EMD HilbertTransform EMDAnalyzer.

(** ** Decomposition *)

(** The threshold [1e-10] and the two factors of the placeholder sift. *)
Definition eps : Qc := Q2Qc 1e-10.
Definition tenth : Qc := Q2Qc 0.1.


(** ** Arrays of samples by modes *)

(** The entry [rows[j, i]]. *)
Definition cell (rows : list (list Qc)) (j i : nat) : Qc :=
  nth i (nth j rows []) 0%Qc.

(** Mode [i] on the window of [2 * h + 1] samples centred on sample [j],
    for [h <= j]. *)
Definition centered_window (h j i : nat) (rows : list (list Qc)) : list Qc :=
  column i (take (2 * h + 1) (drop (j - h) rows)).

(** [sum(w * f) / sum(w)] *)
Definition weighted_average (w f : list Qc) : Qc :=
  (np_sum (zip_with Qcmult w f) / np_sum w)%Qc.

(** A two-dimensional array of [n] samples by [k] modes. *)
Definition has_shape (n k : nat) (rows : list (list Qc)) : Prop :=
  length rows = n /\ Forall (fun row => length row = k) rows.

(** ** Smoothing *)

Section SmoothingTerms.

Variables (n k window : nat) (F A : list (list Qc)).

(** The test [np.sum(weights) > 0] at sample [j] of mode [i], and the
    value stored when it holds. *)
Definition window_positive (j i : nat) : Prop :=
  Qlt_bool 0 (np_sum (centered_window (window / 2) j i A)) = true.

#[global] Instance window_positive_dec (j i : nat) :
  Decision (window_positive j i).
Proof. unfold window_positive. apply _. Defined.

Definition window_average (j i : nat) : Qc :=
  weighted_average (centered_window (window / 2) j i A)
                   (centered_window (window / 2) j i F).

(** The inner loop, for mode [i], over the samples [js]. *)
Definition inner_inv (i : nat) (s0 : list (list Qc)) (seen : list nat)
    (s : list (list Qc)) : Prop :=
  has_shape n k s
  /\ forall j' i',
       cell s j' i'
       = if decide (i' = i /\ j' ∈ seen /\ window_positive j' i)
         then window_average j' i else cell s0 j' i'.

(** The outer loop, over the modes [seen], with the inner loop over [js]. *)
Definition outer_inv (js seen : list nat) (s : list (list Qc)) : Prop :=
  has_shape n k s
  /\ forall j' i',
       cell s j' i'
       = if decide (i' ∈ seen /\ j' ∈ js /\ window_positive j' i')
         then window_average j' i' else cell F j' i'.

End SmoothingTerms.

(** ** Instantaneous frequency *)

(** A sequence padded by one sample, its last value repeated. *)
Definition pad_last (x : list Qc) : list Qc :=
  match last x with
  | Some v => x ++ [v]
  | None => x
  end.

(** The instantaneous frequency as the specification words it: [1/dt]
    times the first difference of the phase, divided by [2 pi], padded. *)
Definition instantaneous_frequency (dt : Qc) (phase : list Qc) : list Qc :=
  pad_last (map (fun d => 1 / dt * d / (2 * math_pi))%Qc (np_diff phase)).

Section SpectrumTerms.

Variable E : externals.

(** The unwrapped phase and the amplitude of the analytic signal of a
    mode. *)
Definition phase_of (mode : list Qc) : list Qc :=
  np_unwrap E (np_angle E (hilbert E mode)).

Definition amplitude_of (mode : list Qc) : list Qc :=
  np_abs E (hilbert E mode).

End SpectrumTerms.

(** ** Summary statistics *)

(** The rule of the source for the mean period, given the mean frequency. *)
Definition period_rule (mean_freq mean_period : option Qc) : Prop :=
  exists f, mean_freq = Some f
            /\ ((0 < f)%Qc -> mean_period = Some (1 / f)%Qc)
            /\ ((f <= 0)%Qc -> mean_period = Some 0%Qc).

(** The rule as the specification words it. *)
Definition period_rule_stated (mean_freq mean_period : option Qc) : Prop :=
  exists f, mean_freq = Some f
            /\ (f <> 0%Qc -> mean_period = Some (1 / f)%Qc)
            /\ (f = 0%Qc -> mean_period = Some 0%Qc).

Section StatisticsTerms.

Variable amplitudes : ndarray.

(** What the loop of [_compute_statistics] has built after the modes
    [seen]: one entry per mode, each following the rules. *)
Definition statistics_inv (seen : list nat) (s : statistics_t) : Prop :=
  length (mean_frequencies s) = length seen
  /\ length (mean_periods s) = length seen
  /\ Forall2 period_rule (mean_frequencies s) (mean_periods s)
  /\ (forall i amp, i < length seen -> col_of amplitudes i = Returned amp ->
        np_sum amp = 0%Qc ->
        mean_frequencies s !! i = Some (Some 0%Qc)
        /\ mean_periods s !! i = Some (Some 0%Qc)).

End StatisticsTerms.

(** ** Running the analyzer *)

(** A stand-in for the external packages, to run the analysis on concrete
    inputs: PyEMD is absent, the transform returns its input, whose values
    serve as phase and whose absolute values serve as amplitude. *)
Definition stand_in : externals := {|
  PyEMD_EMD := None;
  analytic := list Qc;
  hilbert := fun x => x;
  np_abs := map Qcabs;
  np_angle := fun x => x;
  np_unwrap := fun x => x
|}.

(** One call of [analyze_signal], and the analyzer after a sequence of
    calls on a fresh analyzer; a call that raises stores nothing. *)
Record call : Type := {
  call_signal : list Qc;
  call_name : string;
  call_dt : Qc
}.

Definition after_call (E : externals) (self : t) (c : call) : t :=
  match analyze_signal E self (call_signal c) (call_name c) (call_dt c) with
  | Returned (_, self') => self'
  | Raised _ => self
  end.

Definition after_calls (E : externals) (calls : list call) : t :=
  foldl (after_call E) __init__ calls.

(** A call whose analysis returns a bundle (on a fresh analyzer). *)
Definition succeeds (E : externals) (c : call) : Prop :=
  exists r self',
    analyze_signal E __init__ (call_signal c) (call_name c) (call_dt c)
    = Returned (r, self').


(** The mean frequency of mode [i] as [_compute_statistics] defines it:
    the amplitude-weighted average of the column, or [0] when the
    amplitudes do not sum to a positive number. *)
Definition mean_frequency_value (F A : list (list Qc)) (i : nat) : Qc :=
  if Qlt_bool 0 (np_sum (column i A))
  then weighted_average (column i A) (column i F) else 0%Qc.

(** What the loop of [_compute_statistics] has built after the modes
    [seen], entry by entry. *)
Definition statistics_values (F A : list (list Qc)) (seen : list nat)
    (s : statistics_t) : Prop :=
  length (mean_frequencies s) = length seen
  /\ length (mean_periods s) = length seen
  /\ length (mean_amplitudes s) = length seen
  /\ forall i, i < length seen ->
       mean_frequencies s !! i = Some (Some (mean_frequency_value F A i))
       /\ mean_amplitudes s !! i = Some (np_mean (column i A)).

(** ** Dates *)

(** The number of occurrences of a character in a string. *)
Fixpoint count_char (c : ascii) (s : string) : nat :=
  match s with
  | EmptyString => 0
  | String c' s' => (if Ascii.eqb c' c then 1 else 0) + count_char c s'
  end.

(** [year-month-day] *)
Definition iso_date (year month day : string) : string :=
  (year ++ "-" ++ month ++ "-" ++ day)%string.

(** [int(list_of_rows[i][4])], the cumulative count of row [i]. *)
Definition cumulative (int : string -> outcome Z)
    (rows : list (list string)) (i : nat) : outcome Z :=
  DataLoader.int_field int rows i 4.

(** A stand-in for Python's [int], to run the loader on concrete rows:
    the value of a non-empty string of decimal digits, [ValueError] on
    anything else. *)
Fixpoint digits_value (acc : Z) (s : string) : outcome Z :=
  match s with
  | EmptyString => Returned acc
  | String c s' =>
      let n := nat_of_ascii c in
      if (48 <=? n) && (n <=? 57)
      then digits_value (10 * acc + Z.of_nat (n - 48)) s'
      else Raised ValueError
  end.

Definition digits_int (s : string) : outcome Z :=
  match s with
  | EmptyString => Raised ValueError
  | _ => digits_value 0 s
  end.

(** The state of the loop of the increases: four lists of one length, the
    first with the cumulative counts as its partial sums. *)
Definition cases_inv (int : string -> outcome Z)
    (rows : list (list string)) (seen : list nat)
    (st : list Z * list Z * list Z * list Z) : Prop :=
  let '(infect, hosp, mild, severe) := st in
  length infect = S (length seen)
  /\ length hosp = S (length seen)
  /\ length mild = S (length seen)
  /\ length severe = S (length seen)
  /\ (seen <> [] -> exists c1, cumulative int rows 1 = Returned c1)
  /\ forall k ck c1,
       1 <= k <= length infect ->
       cumulative int rows 1 = Returned c1 ->
       cumulative int rows k = Returned ck ->
       foldr Z.add 0%Z (take k infect) = (ck - c1)%Z.

(** Rows of the two files, to run the loader: a header and three days. *)
Definition sample_rows : list (list string) :=
  [["no"; "code"; "area"; "date"; "positive"; "hospital"; "mild"; "severe"];
   ["1"; "130001"; "Tokyo"; "2021-10-04"; "10"; "5"; "3"; "1"];
   ["2"; "130001"; "Tokyo"; "2021-10-05"; "13"; "6"; "4"; "1"];
   ["3"; "130001"; "Tokyo"; "2021-10-06"; "19"; "6"; "6"; "2"]]%string.

Definition sample_tests : list (list string) :=
  [["no"; "code"; "area"; "date"; "positive"; "negative"; "tests"];
   ["1"; "130001"; "Tokyo"; "2021-10-04"; "3"; "9"; "12"];
   ["2"; "130001"; "Tokyo"; "2021-10-05"; "0"; "0"; "0"]]%string.

(** The same, with the empty day written [00]. *)
Definition sample_tests_00 : list (list string) :=
  [["no"; "code"; "area"; "date"; "positive"; "negative"; "tests"];
   ["1"; "130001"; "Tokyo"; "2021-10-04"; "3"; "9"; "12"];
   ["2"; "130001"; "Tokyo"; "2021-10-05"; "0"; "0"; "00"]]%string.

(** What the loop over the testing file has checked on the rows [seen]: a
    count of tests that reads as zero is written [0]. *)
Definition tests_inv (int : string -> outcome Z)
    (rows : list (list string)) (seen : list nat) : Prop :=
  forall x s, x ∈ seen ->
    DataLoader.field rows x 6 = Returned s -> int s = Returned 0%Z ->
    s = "0"%string.

(** * Properties *)

(** ** Numbers *)

Lemma Qlt_bool_true (x y : Qc) : Qlt_bool x y = true <-> (x < y)%Qc.
Proof. unfold Qlt_bool. apply bool_decide_eq_true. Qed.

Lemma Qlt_bool_false (x y : Qc) : Qlt_bool x y = false <-> (y <= x)%Qc.
Proof.
  unfold Qlt_bool. rewrite bool_decide_eq_false. split.
  - apply Qcnot_lt_le.
  - apply Qcle_not_lt.
Qed.

(** Orders on [Qc] are those of the underlying fractions. *)
Ltac qc_to_q :=
  unfold Qclt, Qcle, Qcmult, Qcplus, Qcminus, Qcopp, Q2Qc in *;
  cbn [this] in *;
  rewrite ?Qred_correct in *.

Lemma Qc_square_nonneg (t : Qc) : (0 <= t * t)%Qc.
Proof. qc_to_q. nra. Qed.

Lemma np_div_nonzero (a b : Qc) : b <> 0%Qc -> np_div a b = Some (a / b)%Qc.
Proof. intros Hb. unfold np_div. by rewrite bool_decide_eq_false_2. Qed.

Lemma np_div_zero (a : Qc) : np_div a 0 = None.
Proof. reflexivity. Qed.

Lemma np_div_is_Some (a b : Qc) : is_Some (np_div a b) <-> b <> 0%Qc.
Proof.
  unfold np_div. case_bool_decide as Hb; split; intros H.
  - by destruct H.
  - done.
  - done.
  - eauto.
Qed.

Lemma Qc_of_nat_nonzero (n : nat) : n <> 0%nat -> Qc_of_Z (Z.of_nat n) <> 0%Qc.
Proof.
  intros Hn H. rewrite <- Z2Qc_inj_0 in H. apply Z2Qc_inj in H. lia.
Qed.


Lemma np_sum_scale (c : Qc) (x : list Qc) :
  np_sum (map (fun xi => xi * c)%Qc x) = (np_sum x * c)%Qc.
Proof.
  unfold np_sum. induction x as [|a x IH]; simpl.
  - ring.
  - rewrite IH. ring.
Qed.

Lemma np_sum_replicate (n : nat) (c : Qc) :
  np_sum (replicate n c) = (Qc_of_Z (Z.of_nat n) * c)%Qc.
Proof.
  unfold np_sum. induction n as [|n IH].
  - change (Z.of_nat 0) with 0%Z. rewrite Z2Qc_inj_0. cbn [replicate foldr]. ring.
  - cbn [replicate foldr]. rewrite IH.
    replace (Z.of_nat (S n)) with (Z.of_nat n + 1)%Z by lia.
    rewrite Z2Qc_inj_add, Z2Qc_inj_1. ring.
Qed.

(** ** Mean and variance *)

Lemma np_mean_nil : np_mean [] = None.
Proof. reflexivity. Qed.

Lemma np_mean_nonempty (x : list Qc) :
  x <> [] -> np_mean x = Some (np_sum x / Qc_of_Z (Z.of_nat (length x)))%Qc.
Proof.
  intros Hx. unfold np_mean. apply np_div_nonzero, Qc_of_nat_nonzero.
  destruct x; [done | simpl; lia].
Qed.

Lemma np_mean_scale (c : Qc) (x : list Qc) :
  np_mean (map (fun xi => xi * c)%Qc x) = (fun m => m * c)%Qc <$> np_mean x.
Proof.
  destruct x as [|a x]; [reflexivity|].
  rewrite !np_mean_nonempty by done. rewrite np_sum_scale, length_map.
  cbn [fmap option_fmap option_map]. f_equal. field.
  apply Qc_of_nat_nonzero. simpl. lia.
Qed.

Lemma np_var_scale (c : Qc) (x : list Qc) :
  np_var (map (fun xi => xi * c)%Qc x) = (fun v => v * (c * c))%Qc <$> np_var x.
Proof.
  unfold np_var. rewrite np_mean_scale.
  destruct (np_mean x) as [m|]; [|reflexivity].
  cbn [fmap option_fmap option_map mbind option_bind].
  rewrite <- np_mean_scale. f_equal.
  rewrite !map_map. apply map_ext. intros xi. ring.
Qed.

Lemma np_var_replicate (n : nat) (c : Qc) :
  np_var (replicate n c) = if Nat.eqb n 0 then None else Some 0%Qc.
Proof.
  destruct n as [|n]; [reflexivity|].
  cbn [Nat.eqb]. unfold np_var.
  assert (Hne : forall d : Qc, replicate (S n) d <> []) by done.
  assert (Hn : Qc_of_Z (Z.of_nat (S n)) <> 0%Qc) by (apply Qc_of_nat_nonzero; lia).
  rewrite np_mean_nonempty by done.
  rewrite np_sum_replicate, length_replicate.
  cbn [mbind option_bind].
  replace (Qc_of_Z (Z.of_nat (S n)) * c / Qc_of_Z (Z.of_nat (S n)))%Qc with c
    by (field; done).
  change (map ?f (replicate (S n) c)) with (f <$> replicate (S n) c).
  rewrite fmap_replicate.
  replace ((c - c) * (c - c))%Qc with 0%Qc by ring.
  rewrite np_mean_nonempty by done.
  rewrite np_sum_replicate, length_replicate. f_equal. field. done.
Qed.

(** The variance of a constant signal is [0], and [nan] on the empty
    signal: its standard deviation is above no threshold. *)
Lemma np_std_gt_replicate (n : nat) (c t : Qc) :
  np_std_gt (replicate n c) t = false.
Proof.
  unfold np_std_gt. rewrite np_var_replicate.
  destruct (Nat.eqb n 0); [reflexivity|].
  apply Qlt_bool_false. apply Qc_square_nonneg.
Qed.

Lemma np_var_is_Some (x : list Qc) : x <> [] -> is_Some (np_var x).
Proof.
  intros Hx. unfold np_var. rewrite np_mean_nonempty by done.
  cbn [mbind option_bind]. rewrite np_mean_nonempty; [eauto|].
  destruct x; [done | discriminate].
Qed.

(** ** The decomposer *)


Lemma _sift_length (r : list Qc) : length (_sift r) = length r.
Proof. apply length_map. Qed.


Lemma eps_square_pos : (0 < eps * eps)%Qc.
Proof. reflexivity. Qed.


(** A signal whose deviation is not above the threshold gives a first
    mode whose deviation is below it. *)
Lemma std_first_mode (r : list Qc) :
  r <> [] ->
  np_std_gt r eps = false ->
  np_std_lt (_sift r) eps = true.
Proof.
  intros Hr Hgt. unfold np_std_lt, np_std_gt, _sift in *.
  fold tenth. rewrite np_var_scale.
  destruct (np_var_is_Some r Hr) as [v Hv]. rewrite Hv in *.
  cbn [fmap option_fmap option_map] in *.
  apply Qlt_bool_false in Hgt. apply Qlt_bool_true.
  pose proof eps_square_pos as Hpos.
  unfold tenth in *. qc_to_q. lra.
Qed.



(** What one run of the loop keeps, whatever the number of rounds. *)

Lemma sift_loop_length fuel imfs r imfs' r' n :
  sift_loop fuel imfs r = (imfs', r') ->
  length r = n -> Forall (fun row => length row = n) imfs ->
  length r' = n /\ Forall (fun row => length row = n) imfs'.
Proof.
  revert imfs r. induction fuel as [|fuel IH]; intros imfs r Hrun Hr Himfs.
  - cbn in Hrun. by simplify_eq.
  - cbn [sift_loop] in Hrun.
    destruct (Nat.ltb (length r) 4); [by simplify_eq|].
    destruct (np_std_lt (_sift r) (Q2Qc 1e-10)); [by simplify_eq|].
    apply IH in Hrun; [done | |].
    + rewrite length_zip_with, _sift_length. lia.
    + apply Forall_app. split; [done|].
      apply Forall_singleton. by rewrite _sift_length.
Qed.



(** No mode is taken from a signal whose deviation is not above the
    threshold, or that has fewer than four samples. *)
Lemma sift_loop_none fuel signal :
  length signal < 4 \/ np_std_gt signal eps = false ->
  sift_loop fuel [] signal = ([], signal).
Proof.
  intros H. destruct fuel as [|fuel]; [reflexivity|].
  cbn [sift_loop]. destruct (Nat.ltb (length signal) 4) eqn:Hlen; [reflexivity|].
  apply Nat.ltb_ge in Hlen. destruct H as [H|H]; [lia|].
  fold eps. rewrite std_first_mode; [reflexivity | | done].
  intros ->. cbn in Hlen. lia.
Qed.

Lemma uniform_Forall (rows : list (list Qc)) (n : nat) :
  Forall (fun row => length row = n) rows -> uniform rows = true.
Proof.
  destruct rows as [|r rows]; [reflexivity|].
  intros H. apply Forall_cons in H as [Hr H]. cbn [uniform].
  apply forallb_forall. intros r' Hin.
  rewrite Forall_forall in H. apply Nat.eqb_eq.
  rewrite Hr. apply H. by apply list_elem_of_In.
Qed.

Lemma collected_length (signal : list Qc) :
  Forall (fun row => length row = length signal) (collected signal).
Proof.
  unfold collected. destruct (sift_loop 10 [] signal) as [imfs r] eqn:Hrun.
  eapply sift_loop_length in Hrun as [Hr Himfs]; [|reflexivity|constructor].
  destruct (np_std_gt r (Q2Qc 1e-10)); [|done].
  apply Forall_app. split; [done|]. by apply Forall_singleton.
Qed.

(** The decomposer raises nothing: it returns the rows it collected. *)
Lemma _simple_emd_returns (signal : list Qc) :
  _simple_emd signal = Returned (stack (collected signal)).
Proof.
  unfold _simple_emd, np_array.
  by rewrite (uniform_Forall _ _ (collected_length signal)).
Qed.


Lemma collected_flat (signal : list Qc) :
  np_std_gt signal eps = false -> collected signal = [].
Proof.
  intros H. unfold collected. rewrite sift_loop_none by auto.
  fold eps. by rewrite H.
Qed.










Lemma _simple_emd_constant (c : Qc) (n : nat) :
  collected (replicate n c) = [].
Proof. apply collected_flat, np_std_gt_replicate. Qed.



(** ** Columns and products *)

Lemma column_length i rows : length (column i rows) = length rows.
Proof. apply length_map. Qed.

Lemma np_mul_same_length x y :
  length x = length y -> np_mul x y = Returned (zip_with Qcmult x y).
Proof. intros H. unfold np_mul. by rewrite H, Nat.eqb_refl. Qed.

(** ** Loops *)

Lemma for_each_invariant {A S : Type} (P : list A -> S -> Prop)
    (xs : list A) (body : A -> S -> outcome S) (st0 st : S) :
  P [] st0 ->
  (forall seen x rest s s',
      xs = seen ++ x :: rest -> P seen s -> body x s = Returned s' ->
      P (seen ++ [x]) s') ->
  for_each xs body st0 = Returned st -> P xs st.
Proof.
  intros H0 Hstep.
  assert (Hgen : forall todo seen s,
             xs = seen ++ todo -> P seen s ->
             for_each todo body s = Returned st -> P xs st).
  { induction todo as [|x todo IH]; intros seen s Hxs Hs Hrun.
    - cbn in Hrun. rewrite app_nil_r in Hxs. by simplify_eq.
    - cbn [for_each] in Hrun.
      destruct (body x s) as [s'|e] eqn:Hbody; [|discriminate].
      cbn in Hrun. apply (IH (seen ++ [x]) s'); [| |done].
      + by rewrite <- app_assoc.
      + by eapply Hstep. }
  by apply (Hgen xs [] st0).
Qed.

Lemma for_each_total {A S : Type} (P : list A -> S -> Prop)
    (xs : list A) (body : A -> S -> outcome S) (st0 : S) :
  P [] st0 ->
  (forall seen x rest s,
      xs = seen ++ x :: rest -> P seen s ->
      exists s', body x s = Returned s' /\ P (seen ++ [x]) s') ->
  exists st, for_each xs body st0 = Returned st /\ P xs st.
Proof.
  intros H0 Hstep.
  assert (Hgen : forall todo seen s,
             xs = seen ++ todo -> P seen s ->
             exists st, for_each todo body s = Returned st /\ P xs st).
  { induction todo as [|x todo IH]; intros seen s Hxs Hs.
    - rewrite app_nil_r in Hxs. subst seen. by exists s.
    - destruct (Hstep seen x todo s Hxs Hs) as (s' & Hbody & Hs').
      cbn [for_each]. rewrite Hbody. cbn [mbind outcome_bind].
      apply (IH (seen ++ [x]) s'); [|done]. by rewrite <- app_assoc. }
  by apply (Hgen xs [] st0).
Qed.

Lemma seq_split_index (n : nat) (seen rest : list nat) (x : nat) :
  seq 0 n = seen ++ x :: rest -> x = length seen /\ x < n.
Proof.
  intros H.
  assert (Hx : seq 0 n !! length seen = Some x).
  { rewrite H. by rewrite list_lookup_middle. }
  apply lookup_seq in Hx. lia.
Qed.

(** ** Summary statistics *)

Lemma Qc_pos_nonzero (x : Qc) : (0 < x)%Qc -> x <> 0%Qc.
Proof. intros H ->. by apply Qclt_not_eq in H. Qed.

Lemma mean_freq_of_finite (freq amp : list Qc) (r : option Qc) :
  mean_freq_of freq amp = Returned r -> is_Some r.
Proof.
  unfold mean_freq_of. destruct (Qlt_bool 0 (np_sum amp)) eqn:Hpos.
  - apply Qlt_bool_true in Hpos.
    destruct (np_mul amp freq) as [wf|e]; [|discriminate].
    cbn. intros [= <-]. apply np_div_is_Some. by apply Qc_pos_nonzero.
  - intros [= <-]. eauto.
Qed.

Lemma mean_freq_of_zero (freq amp : list Qc) :
  np_sum amp = 0%Qc -> mean_freq_of freq amp = Returned (Some 0%Qc).
Proof. intros H. unfold mean_freq_of. by rewrite H. Qed.

Lemma mean_period_of_rule (f : Qc) : period_rule (Some f) (mean_period_of (Some f)).
Proof.
  exists f. split; [done|]. cbn [mean_period_of]. split; intros H.
  - rewrite (proj2 (Qlt_bool_true _ _) H).
    apply np_div_nonzero. by apply Qc_pos_nonzero.
  - by rewrite (proj2 (Qlt_bool_false _ _) H).
Qed.

Section Statistics.

Variables imfs frequencies amplitudes : ndarray.
Variable st : statistics_t.
Hypothesis Hrun : _compute_statistics imfs frequencies amplitudes = Returned st.

Lemma statistics_step_inv (n : nat) seen x rest s s' :
  seq 0 n = seen ++ x :: rest ->
  statistics_inv amplitudes seen s ->
  statistics_step frequencies amplitudes x s = Returned s' ->
  statistics_inv amplitudes (seen ++ [x]) s'.
Proof.
  intros Hseq (Hlf & Hlp & Hrule & Hzero) Hstep.
  apply seq_split_index in Hseq as [-> _].
  unfold statistics_step in Hstep.
  destruct (col_of frequencies (length seen)) as [freq|e]; [|discriminate].
  destruct (col_of amplitudes (length seen)) as [amp|e] eqn:Hamp; [|discriminate].
  cbn [mbind outcome_bind] in Hstep.
  destruct (mean_freq_of freq amp) as [mf|e] eqn:Hmf; [|discriminate].
  cbn in Hstep. injection Hstep as <-.
  unfold statistics_inv. cbn [mean_frequencies mean_periods].
  destruct (mean_freq_of_finite _ _ _ Hmf) as [f ->].
  rewrite !length_app. cbn [length].
  split; [lia|]. split; [lia|]. split.
  - apply Forall2_app; [done|]. constructor; [|constructor].
    apply mean_period_of_rule.
  - intros i amp' Hi Hamp' Hsum.
    destruct (decide (i = length seen)) as [->|Hne].
    + rewrite Hamp in Hamp'. injection Hamp' as <-.
      rewrite mean_freq_of_zero in Hmf by done. injection Hmf as <-.
      rewrite <- Hlf at 1. rewrite <- Hlp.
      by rewrite !list_lookup_middle.
    + rewrite !lookup_app_l by lia. apply (Hzero i amp'); [lia|done|done].
Qed.

Lemma statistics_inv_final :
  exists n, shape1 frequencies = Returned n /\ statistics_inv amplitudes (seq 0 n) st.
Proof.
  unfold _compute_statistics in Hrun.
  destruct (shape1 frequencies) as [n|e]; [|discriminate].
  exists n. split; [done|]. cbn [mbind outcome_bind] in Hrun.
  revert Hrun. unfold range. rewrite Nat.sub_0_r.
  apply for_each_invariant.
  - unfold statistics_inv. cbn.
    repeat split; [constructor | cbn in *; lia | cbn in *; lia].
  - intros seen x rest s s'. apply statistics_step_inv.
Qed.

End Statistics.

(** On frequencies and amplitudes of one shape the statistics are
    returned: nothing raises. *)
Lemma _compute_statistics_returns (imfs : ndarray) (n k : nat)
    (F A : list (list Qc)) :
  has_shape n k F -> has_shape n k A ->
  exists st, _compute_statistics imfs (Arr2 n k F) (Arr2 n k A) = Returned st.
Proof.
  intros [HF _] [HA _]. unfold _compute_statistics.
  cbn [shape1 mbind outcome_bind].
  destruct (for_each_total (fun _ _ => True) (range 0 k)
              (statistics_step (Arr2 n k F) (Arr2 n k A))
              {| mean_frequencies := []; mean_periods := [];
                 mean_amplitudes := [] |}) as (st & Hrun & _); [done| |eauto].
  intros seen x rest s Hsplit _. unfold range in Hsplit.
  rewrite Nat.sub_0_r in Hsplit. apply seq_split_index in Hsplit as [_ Hx].
  unfold statistics_step, col_of. rewrite (proj2 (Nat.ltb_lt _ _) Hx).
  cbn [mbind outcome_bind]. unfold mean_freq_of.
  rewrite np_mul_same_length by (rewrite !column_length; congruence).
  destruct (Qlt_bool 0 (np_sum (column x A))); cbn; eauto.
Qed.

(** C7, as amended.  For every mode of the returned statistics, the mean
    period is [1 / mean_frequency] when the mean frequency is positive, and
    [0] when it is zero or negative. *)
Theorem mean_period_rule (imfs frequencies amplitudes : ndarray)
    (st : statistics_t) :
  _compute_statistics imfs frequencies amplitudes = Returned st ->
  Forall2 period_rule (mean_frequencies st) (mean_periods st).
Proof.
  intros Hrun.
  destruct (statistics_inv_final _ _ _ _ Hrun) as (n & _ & _ & _ & Hrule & _).
  exact Hrule.
Qed.

Lemma mean_period_rule_witness :
  exists st,
    _compute_statistics (Arr2 2 2 [[Q2Qc 1; Q2Qc 2]; [Q2Qc 3; Q2Qc 4]])
      (Arr2 2 1 [[Q2Qc 3]; [Q2Qc 5]]) (Arr2 2 1 [[Q2Qc 1]; [Q2Qc 1]])
    = Returned st
    /\ Forall2 period_rule (mean_frequencies st) (mean_periods st).
Proof.
  eexists. split.
  - vm_compute. reflexivity.
  - apply (mean_period_rule (Arr2 2 2 [[Q2Qc 1; Q2Qc 2]; [Q2Qc 3; Q2Qc 4]])
             (Arr2 2 1 [[Q2Qc 3]; [Q2Qc 5]]) (Arr2 2 1 [[Q2Qc 1]; [Q2Qc 1]])).
    vm_compute. reflexivity.
Defined.

(** C7, as stated, fails on a mode of negative mean frequency: one sample
    of frequency [-1] and amplitude [1] has mean frequency [-1] and mean
    period [0], not [1 / -1]. *)
Lemma negative_frequency_period_zero :
  ~ (forall st,
        _compute_statistics (Arr2 2 1 [[Q2Qc 1]; [Q2Qc 2]])
          (Arr2 1 1 [[Q2Qc (-1)]]) (Arr2 1 1 [[Q2Qc 1]]) = Returned st ->
        Forall2 period_rule_stated (mean_frequencies st) (mean_periods st)).
Proof.
  intros H.
  destruct (_compute_statistics (Arr2 2 1 [[Q2Qc 1]; [Q2Qc 2]])
              (Arr2 1 1 [[Q2Qc (-1)]]) (Arr2 1 1 [[Q2Qc 1]]))
    as [st|e] eqn:E; [|vm_compute in E; discriminate E].
  specialize (H st eq_refl). vm_compute in E. injection E as <-.
  cbn [mean_frequencies mean_periods] in H.
  apply Forall2_cons_1 in H as [(f & Hf & Hne & _) _].
  injection Hf as <-.
  assert (Hp := Hne ltac:(intros Hz; apply (f_equal this) in Hz;
                          vm_compute in Hz; discriminate Hz)).
  apply (f_equal (option_map this)) in Hp.
  vm_compute in Hp. discriminate Hp.
Qed.

(** C9.  In the returned statistics every mean frequency is a finite
    number, so its quotient was not taken with a zero denominator, and a
    mode whose amplitudes sum to zero has mean frequency [0] and mean
    period [0]. *)
Theorem zero_amplitude_mean_frequency (imfs frequencies amplitudes : ndarray)
    (st : statistics_t) :
  _compute_statistics imfs frequencies amplitudes = Returned st ->
  Forall is_Some (mean_frequencies st)
  /\ (forall i n amp,
        shape1 frequencies = Returned n -> i < n ->
        col_of amplitudes i = Returned amp -> np_sum amp = 0%Qc ->
        mean_frequencies st !! i = Some (Some 0%Qc)
        /\ mean_periods st !! i = Some (Some 0%Qc)).
Proof.
  intros Hrun.
  destruct (statistics_inv_final _ _ _ _ Hrun) as (n & Hn & _ & _ & Hrule & Hzero).
  split.
  - clear Hzero. induction Hrule as [|mf mp mfs mps (f & -> & _) _ IH];
      constructor; eauto.
  - intros i n' amp Hn' Hi Hamp Hsum. rewrite Hn in Hn'. injection Hn' as <-.
    apply (Hzero i amp); [by rewrite length_seq|done|done].
Qed.

Lemma zero_amplitude_mean_frequency_witness :
  exists st,
    _compute_statistics (Arr2 2 2 [[Q2Qc 1; Q2Qc 2]; [Q2Qc 3; Q2Qc 4]])
      (Arr2 2 1 [[Q2Qc 3]; [Q2Qc 5]]) (Arr2 2 1 [[Q2Qc 0]; [Q2Qc 0]])
    = Returned st
    /\ Forall is_Some (mean_frequencies st)
    /\ mean_frequencies st !! 0%nat = Some (Some 0%Qc)
    /\ mean_periods st !! 0%nat = Some (Some 0%Qc).
Proof.
  eexists. split.
  - vm_compute. reflexivity.
  - pose proof (zero_amplitude_mean_frequency
                  (Arr2 2 2 [[Q2Qc 1; Q2Qc 2]; [Q2Qc 3; Q2Qc 4]])
                  (Arr2 2 1 [[Q2Qc 3]; [Q2Qc 5]])
                  (Arr2 2 1 [[Q2Qc 0]; [Q2Qc 0]]) _
                  ltac:(vm_compute; reflexivity)) as [Hfin Hzero].
    split; [exact Hfin|].
    apply (Hzero 0%nat 1%nat [Q2Qc 0; Q2Qc 0]).
    + reflexivity.
    + lia.
    + reflexivity.
    + apply Qc_is_canon. reflexivity.
Defined.

(** ** The results cache *)

Lemma analyze_signal_stores (E : externals) (self self' : t)
    (signal : list Qc) (name : string) (dt : Qc) (r : result_t) :
  analyze_signal E self signal name dt = Returned (r, self') ->
  results self' = <[name := r]> (results self).
Proof.
  unfold analyze_signal. intros H.
  destruct (emd E signal) as [imfs|e]; [|discriminate].
  cbn [mbind outcome_bind] in H.
  destruct (compute_instantaneous_frequency E imfs dt) as [[f a]|e];
    [|discriminate].
  cbn [mbind outcome_bind] in H.
  destruct (wafa_smoothing f a 30) as [sm|e]; [|discriminate].
  cbn [mbind outcome_bind] in H.
  destruct (_compute_statistics imfs sm a) as [st|e]; [|discriminate].
  cbn [mbind outcome_bind] in H. by simplify_eq.
Qed.

(** C8.  After [analyze_signal(signal, name, dt)] has returned a bundle,
    [get_analysis_results(name)] returns that bundle and
    [list_analyzed_signals()] contains [name]. *)
Theorem cache_round_trip (E : externals) (self self' : t)
    (signal : list Qc) (name : string) (dt : Qc) (r : result_t) :
  analyze_signal E self signal name dt = Returned (r, self') ->
  get_analysis_results self' name = Some r
  /\ name ∈ list_analyzed_signals self'.
Proof.
  intros H. apply analyze_signal_stores in H.
  unfold get_analysis_results, list_analyzed_signals. rewrite H.
  split.
  - apply lookup_insert_eq.
  - apply list_elem_of_fmap. exists (name, r). split; [done|].
    apply elem_of_map_to_list. apply lookup_insert_eq.
Qed.

Lemma cache_round_trip_witness :
  exists r self',
    analyze_signal stand_in __init__ [Q2Qc 0; Q2Qc 1; Q2Qc 0; Q2Qc 1]
      "cases" 1%Qc = Returned (r, self')
    /\ get_analysis_results self' "cases" = Some r
    /\ "cases" ∈ list_analyzed_signals self'.
Proof.
  eexists. eexists. split.
  - vm_compute. reflexivity.
  - apply (cache_round_trip stand_in __init__ _
             [Q2Qc 0; Q2Qc 1; Q2Qc 0; Q2Qc 1] "cases" 1%Qc).
    vm_compute. reflexivity.
Defined.

Lemma after_call_other (E : externals) (self : t) (c : call) (name : string) :
  call_name c <> name ->
  get_analysis_results (after_call E self c) name
  = get_analysis_results self name.
Proof.
  intros Hne. unfold after_call.
  destruct (analyze_signal E self (call_signal c) (call_name c) (call_dt c))
    as [[r self']|e] eqn:Hrun; [|done].
  apply analyze_signal_stores in Hrun.
  unfold get_analysis_results. rewrite Hrun. by apply lookup_insert_ne.
Qed.

(** C10.  For a signal name that no call of [analyze_signal] has used,
    [get_analysis_results] returns [None]; being a plain lookup, it has no
    way to raise. *)
Theorem never_analyzed_is_None (E : externals) (calls : list call)
    (name : string) :
  name ∉ map call_name calls ->
  get_analysis_results (after_calls E calls) name = None.
Proof.
  unfold after_calls.
  induction calls as [|c calls IH] using rev_ind; intros Hnot.
  - reflexivity.
  - rewrite foldl_app. cbn [foldl]. rewrite map_app in Hnot.
    rewrite after_call_other.
    + apply IH. intros Hin. apply Hnot. apply elem_of_app. by left.
    + intros Heq. apply Hnot. apply elem_of_app. right.
      cbn. rewrite Heq. apply list_elem_of_here.
Qed.

Lemma never_analyzed_is_None_witness :
  ("deaths" ∉ map call_name
      [{| call_signal := [Q2Qc 0; Q2Qc 1; Q2Qc 0; Q2Qc 1];
          call_name := "cases"; call_dt := 1%Qc |}])
  /\ get_analysis_results
       (after_calls stand_in
          [{| call_signal := [Q2Qc 0; Q2Qc 1; Q2Qc 0; Q2Qc 1];
              call_name := "cases"; call_dt := 1%Qc |}]) "deaths" = None.
Proof.
  assert (H : "deaths" ∉ map call_name
      [{| call_signal := [Q2Qc 0; Q2Qc 1; Q2Qc 0; Q2Qc 1];
          call_name := "cases"; call_dt := 1%Qc |}]).
  { cbn. intros Hin. apply list_elem_of_singleton in Hin. discriminate Hin. }
  split; [exact H|].
  apply (never_analyzed_is_None stand_in _ "deaths" H).
Defined.

(** ** The analysis of a constant signal *)

(** C4 fails on the constant signal of value 42 and length 50 when PyEMD
    is absent: the decomposer returns the empty collection, no mode is
    transformed, the frequency array is one-dimensional, and unpacking its
    shape into two names in [wafa_smoothing] raises [ValueError]. *)
Theorem analyze_constant_raises (A : Type) (transform : list Qc -> A)
    (magnitude angle : A -> list Qc) (unwrap : list Qc -> list Qc)
    (self : t) (name : string) (dt : Qc) :
  analyze_signal
    {| PyEMD_EMD := None; analytic := A; hilbert := transform;
       np_abs := magnitude; np_angle := angle; np_unwrap := unwrap |}
    self (replicate 50 (Q2Qc 42)) name dt
  = Raised ValueError.
Proof.
  unfold analyze_signal, emd. cbn [PyEMD_EMD].
  rewrite _simple_emd_returns, _simple_emd_constant. reflexivity.
Qed.


(** ** Amplitude-weighted smoothing *)

Lemma has_shape_row n k rows j :
  has_shape n k rows -> j < n -> length (nth j rows []) = k.
Proof.
  intros [Hn Hk] Hj. rewrite nth_lookup.
  destruct (lookup_lt_is_Some_2 rows j) as [row Hrow]; [lia|].
  rewrite Hrow. cbn. by eapply (Forall_lookup_1 _ _ _ _ Hk).
Qed.

Lemma has_shape_set_cell n k rows j i v :
  has_shape n k rows -> has_shape n k (set_cell j i v rows).
Proof.
  intros [Hn Hk]. unfold set_cell. split.
  - by rewrite length_alter.
  - apply Forall_alter; [done|]. intros row _ Hrow. by rewrite length_insert.
Qed.

Lemma cell_set_cell n k rows j i v j' i' :
  has_shape n k rows -> j < n -> i < k ->
  cell (set_cell j i v rows) j' i'
  = if decide (j' = j /\ i' = i) then v else cell rows j' i'.
Proof.
  intros Hshape Hj Hi. pose proof Hshape as [Hn Hk].
  unfold cell, set_cell. rewrite !(nth_lookup _ j').
  destruct (decide (j' = j)) as [->|Hne].
  - rewrite list_lookup_alter_eq.
    destruct (lookup_lt_is_Some_2 rows j) as [row Hrow]; [lia|].
    rewrite Hrow. simpl.
    assert (Hlen : length row = k) by by eapply (Forall_lookup_1 _ _ _ _ Hk).
    rewrite !nth_lookup.
    destruct (decide (i' = i)) as [->|Hne].
    + rewrite list_lookup_insert_eq by lia.
      by rewrite decide_True.
    + rewrite list_lookup_insert_ne by done.
      rewrite decide_False; [done | by intros [? ?]].
  - rewrite list_lookup_alter_ne by done.
    rewrite decide_False; [done | by intros [? ?]].
Qed.

Lemma col_slice_window n k rows window j i :
  i < k -> window / 2 <= j ->
  col_slice (Arr2 n k rows) (j - window / 2) (j + window / 2 + 1) i
  = Returned (centered_window (window / 2) j i rows).
Proof.
  intros Hi Hj. unfold col_slice, centered_window.
  rewrite (proj2 (Nat.ltb_lt _ _) Hi).
  do 3 f_equal. lia.
Qed.

Lemma centered_window_length h j i rows rows' :
  length rows = length rows' ->
  length (centered_window h j i rows) = length (centered_window h j i rows').
Proof.
  intros H. unfold centered_window.
  by rewrite !column_length, !length_take, !length_drop, H.
Qed.

Section Smoothing.

Variables (n k window : nat) (F A : list (list Qc)).
Hypothesis HF : has_shape n k F.
Hypothesis HA : has_shape n k A.

Let h := window / 2.

Lemma smooth_cell_returns i j sm :
  i < k -> h <= j ->
  smooth_cell (Arr2 n k F) (Arr2 n k A) window i j sm
  = Returned (if decide (window_positive window A j i)
              then set_cell j i (window_average window F A j i) sm else sm).
Proof.
  intros Hi Hj. unfold smooth_cell.
  rewrite !col_slice_window by done. cbn [mbind outcome_bind].
  destruct (decide (window_positive window A j i)) as [Hpos|Hneg].
  - unfold window_positive in Hpos. rewrite Hpos.
    rewrite np_mul_same_length; [reflexivity|].
    apply centered_window_length. destruct HF, HA. congruence.
  - unfold window_positive in Hneg. apply not_true_is_false in Hneg.
    by rewrite Hneg.
Qed.

Lemma inner_loop i s0 js :
  i < k -> Forall (fun j => h <= j < n) js -> has_shape n k s0 ->
  exists s,
    for_each js (smooth_cell (Arr2 n k F) (Arr2 n k A) window i) s0
    = Returned s
    /\ inner_inv n k window F A i s0 js s.
Proof.
  intros Hi Hjs Hs0. apply for_each_total.
  - split; [done|]. intros j' i'. rewrite decide_False; [done|].
    intros (_ & Hin & _). by apply elem_of_nil in Hin.
  - intros seen x rest s Hsplit [Hs Hcells].
    assert (Hx : h <= x < n).
    { rewrite Forall_forall in Hjs. apply Hjs. rewrite Hsplit.
      apply elem_of_app. right. apply list_elem_of_here. }
    eexists. split; [apply smooth_cell_returns; [done|lia]|].
    split.
    + case_decide; [by apply has_shape_set_cell|done].
    + intros j' i'. destruct (decide (window_positive window A x i)) as [Hpos|Hneg].
      * rewrite (cell_set_cell n k) by (done || lia).
        rewrite Hcells.
        destruct (decide (j' = x /\ i' = i)) as [[-> ->]|Hne].
        -- rewrite decide_True; [done|].
           split; [done|]. split; [|done].
           apply elem_of_app. right. apply list_elem_of_here.
        -- apply decide_ext. rewrite elem_of_app, list_elem_of_singleton.
           split; [tauto|]. intros (-> & [Hin| ->] & Hp); tauto.
      * rewrite Hcells. apply decide_ext.
        rewrite elem_of_app, list_elem_of_singleton.
        split; [tauto|]. intros (-> & [Hin| ->] & Hp); tauto.
Qed.

Lemma outer_loop js modes :
  Forall (fun i => i < k) modes -> Forall (fun j => h <= j < n) js ->
  exists s,
    for_each modes (fun i =>
        for_each js (smooth_cell (Arr2 n k F) (Arr2 n k A) window i)) F
    = Returned s
    /\ outer_inv n k window F A js modes s.
Proof.
  intros Hmodes Hjs. apply for_each_total.
  - split; [done|]. intros j' i'. rewrite decide_False; [done|].
    intros (Hin & _). by apply elem_of_nil in Hin.
  - intros seen x rest s Hsplit [Hs Hcells].
    assert (Hx : x < k).
    { rewrite Forall_forall in Hmodes. apply Hmodes. rewrite Hsplit.
      apply elem_of_app. right. apply list_elem_of_here. }
    destruct (inner_loop x s js Hx Hjs Hs) as (s' & Hrun & Hs' & Hcells').
    exists s'. split; [done|]. split; [done|].
    intros j' i'. rewrite Hcells', Hcells.
    destruct (decide (i' = x /\ j' ∈ js /\ window_positive window A j' x))
      as [(-> & Hin & Hpos)|Hne].
    + rewrite decide_True; [done|]. split; [|done].
      apply elem_of_app. right. apply list_elem_of_here.
    + apply decide_ext. rewrite elem_of_app, list_elem_of_singleton.
      split; [tauto|]. intros ([Hin| ->] & Hj & Hp); tauto.
Qed.

End Smoothing.

Lemma elem_of_range (lo hi x : nat) : x ∈ range lo hi <-> lo <= x < hi.
Proof. unfold range. rewrite elem_of_seq. lia. Qed.

(** C5.  On frequency and amplitude arrays of [n] samples by [k] modes,
    [wafa_smoothing] returns an array of the same shape in which, for every
    mode [i] and every sample [j] with [window/2 <= j < n - window/2], the
    entry is [sum(amplitude * freq) / sum(amplitude)] over the centred
    window when the window's total amplitude is positive and the original
    entry when it is zero, and every sample within half a window of either
    edge keeps its original entry.  This holds for every window size, the
    default 30 included. *)
Theorem wafa_smoothing_cells (n k window : nat) (F A : list (list Qc)) :
  has_shape n k F -> has_shape n k A ->
  exists S,
    wafa_smoothing (Arr2 n k F) (Arr2 n k A) window = Returned (Arr2 n k S)
    /\ has_shape n k S
    /\ forall j i, j < n -> i < k ->
         let w := centered_window (window / 2) j i A in
         let f := centered_window (window / 2) j i F in
         (window / 2 <= j < n - window / 2 ->
            ((0 < np_sum w)%Qc -> cell S j i = weighted_average w f)
            /\ (np_sum w = 0%Qc -> cell S j i = cell F j i))
         /\ (j < window / 2 \/ n - window / 2 <= j -> cell S j i = cell F j i).
Proof.
  intros HF HA.
  destruct (outer_loop n k window F A HF HA
              (range (window / 2) (n - window / 2)) (range 0 k))
    as (S & Hrun & HS & Hcells).
  - apply Forall_forall. intros i Hi. apply elem_of_range in Hi. lia.
  - apply Forall_forall. intros j Hj. apply elem_of_range in Hj. lia.
  - exists S. split; [|split; [done|]].
    + unfold wafa_smoothing. cbn [unpack_shape shape rows_of mbind outcome_bind].
      rewrite Hrun. reflexivity.
    + intros j i Hj Hi w f. rewrite Hcells. split.
      * intros Hmid. split.
        -- intros Hpos. rewrite decide_True; [reflexivity|].
           rewrite !elem_of_range. split; [lia|]. split; [lia|].
           by apply Qlt_bool_true.
        -- intros Hzero. rewrite decide_False; [reflexivity|].
           intros (_ & _ & Hpos). unfold window_positive in Hpos.
           apply Qlt_bool_true in Hpos. fold w in Hpos. rewrite Hzero in Hpos.
           by apply Qclt_not_eq in Hpos.
      * intros Hedge. rewrite decide_False; [reflexivity|].
        rewrite !elem_of_range. lia.
Qed.

Lemma wafa_smoothing_cells_witness :
  has_shape 3 1 [[Q2Qc 1]; [Q2Qc 2]; [Q2Qc 6]]
  /\ has_shape 3 1 [[Q2Qc 1]; [Q2Qc 1]; [Q2Qc 2]]
  /\ exists S,
       wafa_smoothing (Arr2 3 1 [[Q2Qc 1]; [Q2Qc 2]; [Q2Qc 6]])
         (Arr2 3 1 [[Q2Qc 1]; [Q2Qc 1]; [Q2Qc 2]]) 2
       = Returned (Arr2 3 1 S)
       /\ cell S 1 0
          = weighted_average [Q2Qc 1; Q2Qc 1; Q2Qc 2] [Q2Qc 1; Q2Qc 2; Q2Qc 6]
       /\ cell S 0 0 = Q2Qc 1
       /\ cell S 2 0 = Q2Qc 6.
Proof.
  assert (HF : has_shape 3 1 [[Q2Qc 1]; [Q2Qc 2]; [Q2Qc 6]])
    by (split; [reflexivity | repeat constructor]).
  assert (HA : has_shape 3 1 [[Q2Qc 1]; [Q2Qc 1]; [Q2Qc 2]])
    by (split; [reflexivity | repeat constructor]).
  split; [exact HF|]. split; [exact HA|].
  destruct (wafa_smoothing_cells 3 1 2 _ _ HF HA) as (S & Hrun & _ & Hcells).
  exists S. split; [exact Hrun|].
  split; [|split].
  - apply (Hcells 1%nat 0%nat); [lia | lia | cbn; lia | reflexivity].
  - apply (Hcells 0%nat 0%nat); [lia | lia | cbn; lia].
  - apply (Hcells 2%nat 0%nat); [lia | lia | cbn; lia].
Defined.

(** ** Instantaneous frequency and amplitude *)

Section Spectrum.

Variable E : externals.

Lemma np_diff_length (x : list Qc) : length (np_diff x) = length x - 1.
Proof.
  induction x as [|a x IH]; [reflexivity|].
  destruct x as [|b x]; [reflexivity|].
  cbn [np_diff length] in *. rewrite IH. lia.
Qed.

Lemma pad_last_length (x : list Qc) :
  x <> [] -> length (pad_last x) = S (length x).
Proof.
  intros Hx. unfold pad_last.
  destruct (proj2 (last_is_Some x) Hx) as [v ->].
  rewrite length_app. cbn. lia.
Qed.

Lemma instantaneous_frequency_length (dt : Qc) (phase : list Qc) :
  2 <= length phase ->
  length (instantaneous_frequency dt phase) = length phase.
Proof.
  intros H. unfold instantaneous_frequency.
  rewrite pad_last_length.
  - rewrite length_map, np_diff_length. lia.
  - intros Hnil. apply (f_equal length) in Hnil.
    rewrite length_map, np_diff_length in Hnil. cbn in Hnil. lia.
Qed.

(** One mode, for any transform: the frequency is the padded difference
    quotient, and of frequency and amplitude the longer is cut to the
    length of the shorter. *)
Lemma mode_spectrum_truncates (dt : Qc) (mode : list Qc) :
  mode <> [] -> dt <> 0%Qc -> 2 <= length (phase_of E mode) ->
  let f := instantaneous_frequency dt (phase_of E mode) in
  let a := amplitude_of E mode in
  mode_spectrum E dt mode
  = Returned (take (length f `min` length a) f,
              take (length f `min` length a) a).
Proof.
  intros Hmode Hdt Hphase f a. unfold mode_spectrum.
  destruct mode as [|x mode]; [done|].
  unfold py_div. rewrite bool_decide_eq_false_2 by done.
  cbn [mbind outcome_bind].
  fold (phase_of E (x :: mode)). fold (amplitude_of E (x :: mode)). fold a.
  set (freq := map _ (np_diff (phase_of E (x :: mode)))).
  assert (Hfreq : freq <> []).
  { intros Hnil. apply (f_equal length) in Hnil. subst freq.
    rewrite length_map, np_diff_length in Hnil. cbn in Hnil. lia. }
  destruct (proj2 (last_is_Some freq) Hfreq) as [v Hv].
  unfold last_item. rewrite Hv. cbn [mbind outcome_bind].
  assert (Hf : f = freq ++ [v]).
  { subst f. unfold instantaneous_frequency, pad_last. fold freq. by rewrite Hv. }
  rewrite <- Hf.
  destruct (Nat.ltb (length f) (length a)) eqn:H1.
  - apply Nat.ltb_lt in H1. rewrite Nat.min_l by lia.
    by rewrite firstn_all.
  - apply Nat.ltb_ge in H1.
    destruct (Nat.ltb (length a) (length f)) eqn:H2.
    + apply Nat.ltb_lt in H2. rewrite Nat.min_r by lia.
      by rewrite (firstn_all a).
    + apply Nat.ltb_ge in H2. rewrite Nat.min_l by lia.
      rewrite firstn_all. replace (length f) with (length a) by lia.
      by rewrite firstn_all.
Qed.

Hypothesis amplitude_length : forall x, length (amplitude_of E x) = length x.
Hypothesis phase_length : forall x, length (phase_of E x) = length x.

Lemma mode_spectrum_full (dt : Qc) (mode : list Qc) :
  dt <> 0%Qc -> 2 <= length mode ->
  mode_spectrum E dt mode
  = Returned (instantaneous_frequency dt (phase_of E mode), amplitude_of E mode).
Proof.
  intros Hdt Hlen. rewrite mode_spectrum_truncates.
  - rewrite instantaneous_frequency_length by (rewrite phase_length; lia).
    rewrite phase_length, amplitude_length, Nat.min_id.
    rewrite <- (phase_length mode) at 1.
    rewrite <- (instantaneous_frequency_length dt (phase_of E mode))
      by (rewrite phase_length; lia).
    rewrite firstn_all.
    rewrite <- (amplitude_length mode) at 1. by rewrite firstn_all.
  - intros ->. cbn in Hlen. lia.
  - done.
  - rewrite phase_length. lia.
Qed.

Lemma spectrum_loop (m n : nat) (rows : list (list Qc)) (dt : Qc) :
  has_shape m n rows -> 2 <= n -> dt <> 0%Qc ->
  for_each (range 0 (m - 1)) (spectrum_step E (Arr2 m n rows) dt) ([], [])
  = Returned
      (map (fun mode => instantaneous_frequency dt (phase_of E mode))
           (take (m - 1) rows),
       map (amplitude_of E) (take (m - 1) rows)).
Proof.
  intros [Hm Hn] Hlen Hdt.
  set (P := fun (seen : list nat) (s : list (list Qc) * list (list Qc)) =>
         s = (map (fun mode => instantaneous_frequency dt (phase_of E mode))
                  (take (length seen) rows),
              map (amplitude_of E) (take (length seen) rows))).
  destruct (for_each_total P (range 0 (m - 1))
              (spectrum_step E (Arr2 m n rows) dt) ([], [])) as (s & Hrun & Hs).
  - unfold P. cbn. by rewrite take_0.
  - intros seen x rest s Hsplit Hs. unfold range in Hsplit.
    rewrite Nat.sub_0_r in Hsplit.
    apply seq_split_index in Hsplit as [-> Hx].
    destruct (lookup_lt_is_Some_2 rows (length seen)) as [mode Hrow]; [lia|].
    unfold spectrum_step, row_of. rewrite Hrow.
    assert (Hmode : length mode = n) by by eapply (Forall_lookup_1 _ _ _ _ Hn).
    rewrite mode_spectrum_full by (done || lia).
    cbn [mbind outcome_bind]. eexists. split; [reflexivity|].
    unfold P in *. subst s. cbn [fst snd].
    rewrite length_app. cbn [length].
    replace (length seen + 1) with (S (length seen)) by lia.
    rewrite (take_S_r _ _ _ Hrow). by rewrite !map_app.
  - rewrite Hrun. unfold P in Hs. rewrite Hs. unfold range.
    by rewrite length_seq, Nat.sub_0_r.
Qed.

End Spectrum.

(** C6.  With a transform that keeps lengths, on modes of at least two
    samples and a non-zero sampling interval, the returned arrays are
    [np.array(frequencies).T] and [np.array(amplitudes).T] where, for every
    row but the last (the residual), the frequency is [1/dt] times the
    first difference of the unwrapped phase divided by [2 pi], padded to
    the length of the mode by repeating its last value, and frequency and
    amplitude both have the length of the mode. *)
Theorem instantaneous_frequency_of_modes (E : externals) (m n : nat)
    (rows : list (list Qc)) (dt : Qc) :
  (forall x, length (amplitude_of E x) = length x) ->
  (forall x, length (phase_of E x) = length x) ->
  has_shape m n rows -> 2 <= n -> dt <> 0%Qc ->
  compute_instantaneous_frequency E (Arr2 m n rows) dt
  = Returned
      (transpose (stack
         (map (fun mode => instantaneous_frequency dt (phase_of E mode))
              (take (m - 1) rows))),
       transpose (stack (map (amplitude_of E) (take (m - 1) rows))))
  /\ (forall mode, mode ∈ take (m - 1) rows ->
        mode_spectrum E dt mode
        = Returned (instantaneous_frequency dt (phase_of E mode),
                    amplitude_of E mode)
        /\ length (instantaneous_frequency dt (phase_of E mode)) = length mode
        /\ length (amplitude_of E mode) = length mode).
Proof.
  intros Hamp Hphase Hshape Hn Hdt.
  assert (Hmodes : forall mode, mode ∈ take (m - 1) rows -> length mode = n).
  { intros mode Hin. destruct Hshape as [_ Hrows].
    rewrite Forall_forall in Hrows. apply Hrows.
    apply list_elem_of_lookup in Hin as [i Hi].
    apply lookup_take_Some in Hi as [Hi _].
    by apply list_elem_of_lookup_2 in Hi. }
  split.
  - unfold compute_instantaneous_frequency. cbn [shape0].
    rewrite (spectrum_loop E Hamp Hphase m n rows dt) by done.
    cbn [mbind outcome_bind]. unfold np_array.
    assert (Hf : Forall (fun row => length row = n)
                   (map (fun mode => instantaneous_frequency dt (phase_of E mode))
                        (take (m - 1) rows))).
    { apply Forall_forall. intros f Hf.
      apply list_elem_of_fmap in Hf as (mode & -> & Hin).
      rewrite instantaneous_frequency_length; rewrite Hphase, (Hmodes _ Hin); done. }
    assert (Ha : Forall (fun row => length row = n)
                   (map (amplitude_of E) (take (m - 1) rows))).
    { apply Forall_forall. intros a Ha.
      apply list_elem_of_fmap in Ha as (mode & -> & Hin).
      rewrite Hamp. by apply Hmodes. }
    rewrite (uniform_Forall _ n Hf). cbn [mbind outcome_bind].
    rewrite (uniform_Forall _ n Ha). reflexivity.
  - intros mode Hin. pose proof (Hmodes _ Hin) as Hlen. split; [|split].
    + apply mode_spectrum_full; [done | done | done | lia].
    + rewrite instantaneous_frequency_length; rewrite Hphase; [done | lia].
    + apply Hamp.
Qed.

Lemma stand_in_amplitude_length (x : list Qc) :
  length (amplitude_of stand_in x) = length x.
Proof. apply length_map. Qed.

Lemma stand_in_phase_length (x : list Qc) :
  length (phase_of stand_in x) = length x.
Proof. reflexivity. Qed.

Lemma instantaneous_frequency_of_modes_witness :
  has_shape 2 4 [[Q2Qc 0; Q2Qc 1; Q2Qc 0; Q2Qc 1];
                 [Q2Qc 1; Q2Qc 2; Q2Qc 3; Q2Qc 4]]
  /\ 2 <= 4
  /\ 1%Qc <> 0%Qc
  /\ compute_instantaneous_frequency stand_in
       (Arr2 2 4 [[Q2Qc 0; Q2Qc 1; Q2Qc 0; Q2Qc 1];
                  [Q2Qc 1; Q2Qc 2; Q2Qc 3; Q2Qc 4]]) 1
     = Returned
         (transpose (stack
            [instantaneous_frequency 1
               (phase_of stand_in [Q2Qc 0; Q2Qc 1; Q2Qc 0; Q2Qc 1])]),
          transpose (stack
            [amplitude_of stand_in [Q2Qc 0; Q2Qc 1; Q2Qc 0; Q2Qc 1]])).
Proof.
  assert (Hshape : has_shape 2 4 [[Q2Qc 0; Q2Qc 1; Q2Qc 0; Q2Qc 1];
                                  [Q2Qc 1; Q2Qc 2; Q2Qc 3; Q2Qc 4]])
    by (split; [reflexivity | repeat constructor]).
  assert (Hn : 2 <= 4) by lia.
  assert (Hdt : 1%Qc <> 0%Qc) by (apply Qc_pos_nonzero; reflexivity).
  split; [exact Hshape|]. split; [exact Hn|]. split; [exact Hdt|].
  apply (instantaneous_frequency_of_modes stand_in 2 4 _ 1%Qc
           stand_in_amplitude_length stand_in_phase_length Hshape Hn Hdt).
Defined.

(** * Further properties of the code *)

(** ** The cache across calls *)

(** The bundle, or the exception, of an analysis does not depend on what
    the analyzer holds. *)
Lemma analyze_signal_state (E : externals) (self1 self2 : t)
    (signal : list Qc) (name : string) (dt : Qc) :
  match analyze_signal E self1 signal name dt,
        analyze_signal E self2 signal name dt with
  | Returned (r1, _), Returned (r2, _) => r1 = r2
  | Raised e1, Raised e2 => e1 = e2
  | _, _ => False
  end.
Proof.
  unfold analyze_signal.
  destruct (emd E signal) as [imfs|e]; [|done].
  cbn [mbind outcome_bind].
  destruct (compute_instantaneous_frequency E imfs dt) as [[f a]|e]; [|done].
  cbn [mbind outcome_bind].
  destruct (wafa_smoothing f a 30) as [sm|e]; [|done].
  cbn [mbind outcome_bind].
  destruct (_compute_statistics imfs sm a) as [st|e]; done.
Qed.

(** X1.  The cache is used for retrieval only: analysing the same signal,
    name and sampling interval on two analyzers, whatever they hold, gives
    the same bundle, or raises the same exception. *)
Theorem analysis_ignores_cache (E : externals) (self1 self2 : t)
    (signal : list Qc) (name : string) (dt : Qc) :
  match analyze_signal E self1 signal name dt,
        analyze_signal E self2 signal name dt with
  | Returned (r1, _), Returned (r2, _) => r1 = r2
  | Raised e1, Raised e2 => e1 = e2
  | _, _ => False
  end.
Proof. apply analyze_signal_state. Qed.

(** X2.  Analysing a signal under one name leaves the bundles stored under
    every other name as they were. *)
Theorem analysis_keeps_other_names (E : externals) (self self' : t)
    (signal : list Qc) (name other : string) (dt : Qc) (r : result_t) :
  analyze_signal E self signal name dt = Returned (r, self') ->
  other <> name ->
  get_analysis_results self' other = get_analysis_results self other.
Proof.
  intros Hrun Hne. apply analyze_signal_stores in Hrun.
  unfold get_analysis_results. rewrite Hrun. by apply lookup_insert_ne.
Qed.

Lemma analysis_keeps_other_names_witness :
  exists r self',
    analyze_signal stand_in
      (after_calls stand_in
         [{| call_signal := [Q2Qc 1; Q2Qc 3; Q2Qc 2; Q2Qc 5];
             call_name := "deaths"; call_dt := 1%Qc |}])
      [Q2Qc 0; Q2Qc 1; Q2Qc 0; Q2Qc 1] "cases" 1%Qc = Returned (r, self')
    /\ "deaths" <> "cases"
    /\ get_analysis_results self' "deaths"
       = get_analysis_results
           (after_calls stand_in
              [{| call_signal := [Q2Qc 1; Q2Qc 3; Q2Qc 2; Q2Qc 5];
                  call_name := "deaths"; call_dt := 1%Qc |}]) "deaths"
    /\ is_Some (get_analysis_results self' "deaths").
Proof.
  eexists. eexists. split; [vm_compute; reflexivity|].
  split; [discriminate|]. split.
  - eapply (analysis_keeps_other_names stand_in _ _
              [Q2Qc 0; Q2Qc 1; Q2Qc 0; Q2Qc 1] "cases" "deaths" 1%Qc);
      [vm_compute; reflexivity | discriminate].
  - vm_compute. eauto.
Defined.

Lemma after_calls_snoc (E : externals) (calls : list call) (c : call) :
  after_calls E (calls ++ [c]) = after_call E (after_calls E calls) c.
Proof. unfold after_calls. by rewrite foldl_app. Qed.

Lemma after_call_succeeds (E : externals) (self : t) (c : call) :
  succeeds E c ->
  exists r, results (after_call E self c) = <[call_name c := r]> (results self).
Proof.
  intros (r & s & Hrun). unfold after_call.
  pose proof (analyze_signal_state E self __init__
                (call_signal c) (call_name c) (call_dt c)) as Hsame.
  rewrite Hrun in Hsame.
  destruct (analyze_signal E self (call_signal c) (call_name c) (call_dt c))
    as [[r' self']|e] eqn:Hself; [|done].
  exists r'. by apply analyze_signal_stores in Hself.
Qed.

Lemma after_call_fails (E : externals) (self : t) (c : call) :
  ~ succeeds E c -> after_call E self c = self.
Proof.
  intros Hfail. unfold after_call.
  pose proof (analyze_signal_state E self __init__
                (call_signal c) (call_name c) (call_dt c)) as Hsame.
  destruct (analyze_signal E self (call_signal c) (call_name c) (call_dt c))
    as [[r' self']|e] eqn:Hself; [|done].
  destruct (analyze_signal E __init__ (call_signal c) (call_name c) (call_dt c))
    as [[r s]|e] eqn:Hinit; [|done].
  exfalso. apply Hfail. by exists r, s.
Qed.

Lemma succeeds_dec (E : externals) (c : call) : succeeds E c \/ ~ succeeds E c.
Proof.
  unfold succeeds.
  destruct (analyze_signal E __init__ (call_signal c) (call_name c) (call_dt c))
    as [[r s]|e]; [left; eauto|].
  right. intros (r & s & H). discriminate H.
Qed.

Lemma stored_iff_analyzed (E : externals) (calls : list call) (name : string) :
  is_Some (results (after_calls E calls) !! name)
  <-> exists c, c ∈ calls /\ call_name c = name /\ succeeds E c.
Proof.
  induction calls as [|c calls IH] using rev_ind.
  - cbn. rewrite lookup_empty. split.
    + intros [? ?]. done.
    + intros (c & Hin & _). by apply elem_of_nil in Hin.
  - rewrite after_calls_snoc.
    destruct (succeeds_dec E c) as [Hok|Hfail].
    + destruct (after_call_succeeds E (after_calls E calls) c Hok) as [r ->].
      destruct (decide (call_name c = name)) as [<-|Hne].
      * rewrite lookup_insert_eq. split; [|eauto].
        intros _. exists c. split; [|done].
        apply elem_of_app. right. apply list_elem_of_here.
      * rewrite lookup_insert_ne by done. rewrite IH. split.
        -- intros (c' & Hin & Hc'). exists c'. split; [|done].
           apply elem_of_app. by left.
        -- intros (c' & Hin & Hname & Hc').
           apply elem_of_app in Hin as [Hin|Hin]; [by exists c'|].
           apply list_elem_of_singleton in Hin. by subst.
    + rewrite after_call_fails by done. rewrite IH. split.
      * intros (c' & Hin & Hc'). exists c'. split; [|done].
        apply elem_of_app. by left.
      * intros (c' & Hin & Hname & Hc').
        apply elem_of_app in Hin as [Hin|Hin]; [by exists c'|].
        apply list_elem_of_singleton in Hin. by subst.
Qed.

(** X3.  After any sequence of calls on a fresh analyzer,
    [list_analyzed_signals()] holds exactly the names under which an
    analysis returned a bundle, each of them once, however often it was
    analysed; it holds no name whose analyses all raised. *)
Theorem listed_names (E : externals) (calls : list call) :
  NoDup (list_analyzed_signals (after_calls E calls))
  /\ forall name,
       name ∈ list_analyzed_signals (after_calls E calls)
       <-> exists c, c ∈ calls /\ call_name c = name /\ succeeds E c.
Proof.
  unfold list_analyzed_signals. split.
  - apply NoDup_fst_map_to_list.
  - intros name. rewrite <- stored_iff_analyzed. split.
    + intros Hin. apply list_elem_of_fmap in Hin as ([n r] & -> & Hin).
      apply elem_of_map_to_list in Hin. cbn. eauto.
    + intros [r Hr]. apply list_elem_of_fmap. exists (name, r).
      split; [done|]. by apply elem_of_map_to_list.
Qed.

(** X4.  [get_analysis_results(name)] returns a bundle exactly for the
    names that [list_analyzed_signals()] lists. *)
Theorem lookup_iff_listed (self : t) (name : string) :
  is_Some (get_analysis_results self name)
  <-> name ∈ list_analyzed_signals self.
Proof.
  unfold get_analysis_results, list_analyzed_signals. split.
  - intros [r Hr]. apply list_elem_of_fmap. exists (name, r).
    split; [done|]. by apply elem_of_map_to_list.
  - intros Hin. apply list_elem_of_fmap in Hin as ([n r] & -> & Hin).
    apply elem_of_map_to_list in Hin. cbn. eauto.
Qed.

(** ** The shape and the rows of a decomposition *)

Lemma sift_loop_count fuel imfs r imfs' r' :
  sift_loop fuel imfs r = (imfs', r') ->
  length imfs' <= length imfs + fuel.
Proof.
  revert imfs r. induction fuel as [|fuel IH]; intros imfs r Hrun.
  - cbn in Hrun. simplify_eq. lia.
  - cbn [sift_loop] in Hrun.
    destruct (Nat.ltb (length r) 4); [simplify_eq; lia|].
    destruct (np_std_lt (_sift r) (Q2Qc 1e-10)); [simplify_eq; lia|].
    apply IH in Hrun. rewrite length_app in Hrun. cbn in Hrun. lia.
Qed.

Lemma collected_count (signal : list Qc) : length (collected signal) <= 11.
Proof.
  unfold collected. destruct (sift_loop 10 [] signal) as [imfs r] eqn:Hrun.
  apply sift_loop_count in Hrun. cbn in Hrun.
  destruct (np_std_gt r (Q2Qc 1e-10)); [|lia].
  rewrite length_app. cbn. lia.
Qed.

(** X5.  On every signal the decomposer raises nothing: it returns the
    array [np.array(rows)] of at most eleven rows (ten modes and the
    residual), each of them as long as the signal. *)
Theorem decomposition_shape (signal : list Qc) :
  exists rows,
    _simple_emd signal = Returned (stack rows)
    /\ length rows <= 11
    /\ Forall (fun row => length row = length signal) rows.
Proof.
  exists (collected signal). split; [apply _simple_emd_returns|].
  split; [apply collected_count | apply collected_length].
Qed.







(** ** Signals that cannot be analysed *)



(** ** Instantaneous frequency: lengths, exceptions and layout *)

(** X9.  Whatever the transform returns, the frequency and the amplitude
    that [compute_instantaneous_frequency] keeps for a mode have the same
    length: the shorter of the phase and the amplitude. *)
Theorem spectrum_lengths_agree (E : externals) (dt : Qc)
    (mode f a : list Qc) :
  mode_spectrum E dt mode = Returned (f, a) ->
  length f = length a
  /\ length f = length (phase_of E mode) `min` length (amplitude_of E mode).
Proof.
  unfold mode_spectrum. destruct mode as [|x mode]; [done|].
  fold (phase_of E (x :: mode)). fold (amplitude_of E (x :: mode)).
  destruct (py_div 1 dt) as [inv_dt|e]; [|done].
  cbn [mbind outcome_bind].
  set (freq := map _ (np_diff (phase_of E (x :: mode)))).
  unfold last_item. destruct (last freq) as [v|] eqn:Hlast; [|done].
  cbn [mbind outcome_bind].
  assert (Hfreq : length (freq ++ [v]) = length (phase_of E (x :: mode))).
  { assert (Hne : freq <> []) by (apply last_is_Some; eauto).
    rewrite length_app. subst freq. rewrite length_map, np_diff_length.
    cbn [length].
    assert (length (np_diff (phase_of E (x :: mode))) <> 0).
    { intros H0. apply Hne. apply length_zero_iff_nil.
      by rewrite length_map. }
    rewrite np_diff_length in H. lia. }
  destruct (Nat.ltb _ _) eqn:H1.
  - apply Nat.ltb_lt in H1. intros [= <- <-].
    rewrite length_take. lia.
  - apply Nat.ltb_ge in H1. destruct (Nat.ltb _ _) eqn:H2.
    + apply Nat.ltb_lt in H2. intros [= <- <-]. rewrite length_take. lia.
    + apply Nat.ltb_ge in H2. intros [= <- <-]. lia.
Qed.

Lemma spectrum_lengths_agree_witness :
  exists f a,
    mode_spectrum stand_in 1 [Q2Qc 0; Q2Qc 1; Q2Qc 0; Q2Qc 1] = Returned (f, a)
    /\ length f = length a
    /\ length f
       = length (phase_of stand_in [Q2Qc 0; Q2Qc 1; Q2Qc 0; Q2Qc 1])
           `min` length (amplitude_of stand_in [Q2Qc 0; Q2Qc 1; Q2Qc 0; Q2Qc 1]).
Proof.
  eexists. eexists. split; [vm_compute; reflexivity|].
  eapply (spectrum_lengths_agree stand_in 1%Qc).
  vm_compute. reflexivity.
Defined.

Lemma range_0_S (n : nat) : range 0 (S n) = 0 :: seq 1 n.
Proof. reflexivity. Qed.



(** X11.  Modes of a single sample make
    [compute_instantaneous_frequency] raise [IndexError]: the phase has no
    difference, and [freq[-1]] reads an empty array. *)
Theorem single_sample_raises (E : externals) (m : nat)
    (rows : list (list Qc)) (dt : Qc) :
  (forall x, length (phase_of E x) = length x) ->
  has_shape m 1 rows -> 2 <= m -> dt <> 0%Qc ->
  compute_instantaneous_frequency E (Arr2 m 1 rows) dt = Raised IndexError.
Proof.
  intros Hphase [Hm Hn] Hrows Hdt. unfold compute_instantaneous_frequency.
  cbn [shape0]. destruct m as [|[|m]]; [lia|lia|].
  replace (S (S m) - 1) with (S m) by lia. rewrite range_0_S.
  assert (Hstep : spectrum_step E (Arr2 (S (S m)) 1 rows) dt 0 ([], [])
                  = Raised IndexError).
  { unfold spectrum_step, row_of.
    destruct rows as [|mode rows]; [discriminate|].
    cbn [lookup list_lookup]. apply Forall_cons in Hn as [Hmode _].
    destruct mode as [|x [|y mode]]; [discriminate| |discriminate].
    unfold mode_spectrum, py_div. rewrite bool_decide_eq_false_2 by done.
    cbn [mbind outcome_bind]. fold (phase_of E [x]).
    pose proof (Hphase [x]) as Hlen.
    destruct (phase_of E [x]) as [|p [|q ph]]; [discriminate| |discriminate].
    reflexivity. }
  cbn [for_each]. rewrite Hstep. reflexivity.
Qed.

Lemma single_sample_raises_witness :
  has_shape 2 1 [[Q2Qc 3]; [Q2Qc 4]]
  /\ 1%Qc <> 0%Qc
  /\ compute_instantaneous_frequency stand_in (Arr2 2 1 [[Q2Qc 3]; [Q2Qc 4]]) 1
     = Raised IndexError.
Proof.
  assert (Hshape : has_shape 2 1 [[Q2Qc 3]; [Q2Qc 4]])
    by (split; [reflexivity | repeat constructor]).
  assert (Hdt : 1%Qc <> 0%Qc) by (apply Qc_pos_nonzero; reflexivity).
  split; [exact Hshape|]. split; [exact Hdt|].
  apply (single_sample_raises stand_in 2 _ 1%Qc stand_in_phase_length Hshape);
    [lia | exact Hdt].
Defined.

Lemma nth_seq_map {B : Type} (f : nat -> B) (n j : nat) (d : B) :
  j < n -> nth j (map f (seq 0 n)) d = f j.
Proof.
  intros Hj. rewrite nth_lookup, list_lookup_fmap, lookup_seq_lt by done.
  reflexivity.
Qed.

(** [np.array(rows).T] for [k >= 1] rows of [n] samples: [n] rows of [k]
    entries, with the indices exchanged. *)
Lemma transpose_stack (k n : nat) (rows : list (list Qc)) :
  has_shape k n rows -> 1 <= k ->
  exists T,
    transpose (stack rows) = Arr2 n k T
    /\ has_shape n k T
    /\ forall j i, j < n -> cell T j i = nth j (nth i rows []) 0%Qc.
Proof.
  intros [Hk Hn] Hpos.
  exists (map (fun j => column j rows) (seq 0 n)).
  destruct rows as [|r rows]; [cbn in Hk; lia|].
  pose proof (Forall_cons_1 _ _ _ Hn) as [Hr _].
  split; [|split].
  - cbn [stack transpose]. by rewrite Hk, Hr.
  - split.
    + by rewrite length_map, length_seq.
    + apply Forall_forall. intros c Hc.
      apply list_elem_of_fmap in Hc as (j & -> & _).
      by rewrite column_length.
  - intros j i Hj. unfold cell. rewrite nth_seq_map by done.
    unfold column. rewrite (nth_lookup _ i 0%Qc), (nth_lookup _ i []).
    rewrite list_lookup_fmap.
    destruct ((r :: rows) !! i) as [row|]; [reflexivity|].
    by destruct j.
Qed.

Lemma spectrum_arrays (E : externals) (m n : nat) (rows : list (list Qc))
    (dt : Qc) :
  (forall x, length (amplitude_of E x) = length x) ->
  (forall x, length (phase_of E x) = length x) ->
  has_shape m n rows -> 2 <= n -> dt <> 0%Qc ->
  let fs := map (fun mode => instantaneous_frequency dt (phase_of E mode))
                (take (m - 1) rows) in
  let amps := map (amplitude_of E) (take (m - 1) rows) in
  compute_instantaneous_frequency E (Arr2 m n rows) dt
  = Returned (transpose (stack fs), transpose (stack amps))
  /\ has_shape (m - 1) n fs /\ has_shape (m - 1) n amps.
Proof.
  intros Hamp Hphase Hshape Hn Hdt fs amps.
  assert (Hmodes : forall mode, mode ∈ take (m - 1) rows -> length mode = n).
  { intros mode Hin. destruct Hshape as [_ Hrows].
    rewrite Forall_forall in Hrows. apply Hrows.
    apply list_elem_of_lookup in Hin as [i Hi].
    apply lookup_take_Some in Hi as [Hi _].
    by apply list_elem_of_lookup_2 in Hi. }
  assert (Hcount : length (take (m - 1) rows) = m - 1).
  { destruct Hshape as [Hm _]. rewrite length_take. lia. }
  assert (Hf : has_shape (m - 1) n fs).
  { split; [subst fs; by rewrite length_map|].
    apply Forall_forall. intros f Hf.
    apply list_elem_of_fmap in Hf as (mode & -> & Hin).
    rewrite instantaneous_frequency_length; rewrite Hphase, (Hmodes _ Hin); done. }
  assert (Ha : has_shape (m - 1) n amps).
  { split; [subst amps; by rewrite length_map|].
    apply Forall_forall. intros a Ha.
    apply list_elem_of_fmap in Ha as (mode & -> & Hin).
    rewrite Hamp. by apply Hmodes. }
  split; [|done].
  unfold compute_instantaneous_frequency. cbn [shape0].
  rewrite (spectrum_loop E Hamp Hphase m n rows dt) by done.
  cbn [mbind outcome_bind]. unfold np_array.
  fold fs. fold amps.
  rewrite (uniform_Forall _ n (proj2 Hf)). cbn [mbind outcome_bind].
  by rewrite (uniform_Forall _ n (proj2 Ha)).
Qed.

(** X12.  With a transform that keeps lengths, [m >= 2] rows of [n >= 2]
    samples and a non-zero sampling interval, the two returned arrays have
    shape [(n, m - 1)], indexed [sample, mode]: entry [j, i] of the first is
    sample [j] of the instantaneous frequency of row [i], entry [j, i] of
    the second is sample [j] of its amplitude, and the last row (the
    residual) has no column. *)
Theorem spectrum_layout (E : externals) (m n : nat) (rows : list (list Qc))
    (dt : Qc) :
  (forall x, length (amplitude_of E x) = length x) ->
  (forall x, length (phase_of E x) = length x) ->
  has_shape m n rows -> 2 <= m -> 2 <= n -> dt <> 0%Qc ->
  exists Fm Am,
    compute_instantaneous_frequency E (Arr2 m n rows) dt
    = Returned (Arr2 n (m - 1) Fm, Arr2 n (m - 1) Am)
    /\ has_shape n (m - 1) Fm /\ has_shape n (m - 1) Am
    /\ forall j i mode, j < n -> i < m - 1 -> rows !! i = Some mode ->
         cell Fm j i = nth j (instantaneous_frequency dt (phase_of E mode)) 0%Qc
         /\ cell Am j i = nth j (amplitude_of E mode) 0%Qc.
Proof.
  intros Hamp Hphase Hshape Hm Hn Hdt.
  destruct (spectrum_arrays E m n rows dt Hamp Hphase Hshape Hn Hdt)
    as (Hrun & Hf & Ha).
  destruct (transpose_stack _ _ _ Hf) as (Fm & HFm & HFshape & HFcell); [lia|].
  destruct (transpose_stack _ _ _ Ha) as (Am & HAm & HAshape & HAcell); [lia|].
  exists Fm, Am. rewrite Hrun, HFm, HAm.
  split; [done|]. split; [done|]. split; [done|].
  intros j i mode Hj Hi Hrow.
  rewrite HFcell, HAcell by done.
  assert (Htake : take (m - 1) rows !! i = Some mode)
    by (rewrite lookup_take_lt; done).
  split.
  - f_equal. rewrite nth_lookup, list_lookup_fmap, Htake. reflexivity.
  - f_equal. rewrite nth_lookup, list_lookup_fmap, Htake. reflexivity.
Qed.

Lemma spectrum_layout_witness :
  exists Fm Am,
    compute_instantaneous_frequency stand_in
      (Arr2 3 4 [[Q2Qc 0; Q2Qc 1; Q2Qc 0; Q2Qc 1];
                 [Q2Qc 2; Q2Qc 2; Q2Qc 5; Q2Qc 1];
                 [Q2Qc 1; Q2Qc 2; Q2Qc 3; Q2Qc 4]]) 1
    = Returned (Arr2 4 (3 - 1) Fm, Arr2 4 (3 - 1) Am)
    /\ has_shape 4 (3 - 1) Fm /\ has_shape 4 (3 - 1) Am.
Proof.
  assert (Hshape : has_shape 3 4 [[Q2Qc 0; Q2Qc 1; Q2Qc 0; Q2Qc 1];
                                  [Q2Qc 2; Q2Qc 2; Q2Qc 5; Q2Qc 1];
                                  [Q2Qc 1; Q2Qc 2; Q2Qc 3; Q2Qc 4]])
    by (split; [reflexivity | repeat constructor]).
  assert (Hdt : 1%Qc <> 0%Qc) by (apply Qc_pos_nonzero; reflexivity).
  destruct (spectrum_layout stand_in 3 4 _ 1%Qc
              stand_in_amplitude_length stand_in_phase_length Hshape
              ltac:(lia) ltac:(lia) Hdt) as (Fm & Am & Hrun & HF & HA & _).
  exists Fm, Am. split; [exact Hrun|]. split; [exact HF | exact HA].
Defined.

(** ** Weighted averages *)







(** ** Smoothing: what it leaves alone and what it cannot do *)

Lemma for_each_skip {B S : Type} (xs : list B) (body : B -> S -> outcome S)
    (st : S) :
  (forall x s, body x s = Returned s) -> for_each xs body st = Returned st.
Proof.
  intros Hbody. induction xs as [|x xs IH]; [reflexivity|].
  cbn [for_each]. by rewrite Hbody.
Qed.

(** X13.  An array of at most [2 * (window // 2)] samples is returned as it
    is, whatever the amplitudes: no sample is half a window away from both
    edges.  With the default window of 30 this is every signal of at most
    30 samples. *)
Theorem short_array_not_smoothed (n k window : nat) (F : list (list Qc))
    (amplitudes : ndarray) :
  n <= 2 * (window / 2) ->
  wafa_smoothing (Arr2 n k F) amplitudes window = Returned (Arr2 n k F).
Proof.
  intros Hn. unfold wafa_smoothing.
  cbn [unpack_shape shape rows_of mbind outcome_bind].
  replace (range (window / 2) (n - window / 2)) with (@nil nat)
    by (unfold range; replace (n - window / 2 - window / 2) with 0 by lia;
        reflexivity).
  by rewrite for_each_skip.
Qed.

Lemma short_array_not_smoothed_witness :
  4 <= 2 * (30 / 2)
  /\ wafa_smoothing
       (Arr2 4 1 [[Q2Qc 1]; [Q2Qc 5]; [Q2Qc 2]; [Q2Qc 7]])
       (Arr2 4 1 [[Q2Qc 1]; [Q2Qc 1]; [Q2Qc 3]; [Q2Qc 1]]) 30
     = Returned (Arr2 4 1 [[Q2Qc 1]; [Q2Qc 5]; [Q2Qc 2]; [Q2Qc 7]]).
Proof.
  assert (H : 4 <= 2 * (30 / 2)) by (cbn; lia).
  split; [exact H|].
  apply (short_array_not_smoothed 4 1 30 _ _ H).
Defined.








(** ** Statistics: entries, signs and bounds *)

Lemma statistics_run (imfs : ndarray) (n k : nat) (F A : list (list Qc)) :
  has_shape n k F -> has_shape n k A ->
  exists st,
    _compute_statistics imfs (Arr2 n k F) (Arr2 n k A) = Returned st
    /\ statistics_values F A (seq 0 k) st.
Proof.
  intros [HF _] [HA _]. unfold _compute_statistics.
  cbn [shape1 mbind outcome_bind]. unfold range. rewrite Nat.sub_0_r.
  apply for_each_total.
  - unfold statistics_values. cbn. repeat split; intros; lia.
  - intros seen x rest s Hsplit (Hlf & Hlp & Hla & Hval).
    apply seq_split_index in Hsplit as [-> Hx].
    unfold statistics_step, col_of. rewrite (proj2 (Nat.ltb_lt _ _) Hx).
    cbn [mbind outcome_bind]. unfold mean_freq_of.
    rewrite np_mul_same_length by (rewrite !column_length; congruence).
    assert (Hmid : forall (B : Type) (l : list B) (x : B) (m : nat),
               length l = m -> (l ++ [x]) !! m = Some x).
    { intros B l x m <-. by apply list_lookup_middle. }
    destruct (Qlt_bool 0 (np_sum (column (length seen) A))) eqn:Hpos;
      cbn [mbind outcome_bind]; (eexists; split; [reflexivity|]);
      unfold statistics_values;
      cbn [mean_frequencies mean_periods mean_amplitudes];
      rewrite !length_app; cbn [length];
      (split; [lia|]); (split; [lia|]); (split; [lia|]);
      intros i Hi;
      (destruct (decide (i = length seen)) as [->|Hne];
       [ rewrite !Hmid by done; unfold mean_frequency_value; rewrite Hpos
       | rewrite !lookup_app_l by lia; apply Hval; lia ]).
    + split; [|done]. f_equal.
      apply Qlt_bool_true in Hpos.
      by rewrite np_div_nonzero by (by apply Qc_pos_nonzero).
    + done.
Qed.

(** X16.  On frequency and amplitude arrays of one shape [(n, k)],
    [_compute_statistics] raises nothing and returns three lists of [k]
    entries, one per mode: the mean amplitude of mode [i] is [np.mean] of
    its amplitudes, and its mean frequency is their weighted average of
    the frequencies, or [0] when they do not sum to a positive number. *)
Theorem statistics_entries (imfs : ndarray) (n k : nat)
    (F A : list (list Qc)) :
  has_shape n k F -> has_shape n k A ->
  exists st,
    _compute_statistics imfs (Arr2 n k F) (Arr2 n k A) = Returned st
    /\ length (mean_frequencies st) = k
    /\ length (mean_periods st) = k
    /\ length (mean_amplitudes st) = k
    /\ forall i, i < k ->
         mean_frequencies st !! i = Some (Some (mean_frequency_value F A i))
         /\ mean_amplitudes st !! i = Some (np_mean (column i A)).
Proof.
  intros HF HA.
  destruct (statistics_run imfs n k F A HF HA)
    as (st & Hrun & Hlf & Hlp & Hla & Hval).
  rewrite length_seq in *. exists st. repeat split; try done; by apply Hval.
Qed.

Lemma statistics_entries_witness :
  exists st,
    _compute_statistics (Arr1 [])
      (Arr2 2 2 [[Q2Qc 1; Q2Qc 2]; [Q2Qc 3; Q2Qc 4]])
      (Arr2 2 2 [[Q2Qc 1; Q2Qc 0]; [Q2Qc 3; Q2Qc 0]]) = Returned st
    /\ length (mean_frequencies st) = 2
    /\ length (mean_periods st) = 2
    /\ length (mean_amplitudes st) = 2.
Proof.
  assert (HF : has_shape 2 2 [[Q2Qc 1; Q2Qc 2]; [Q2Qc 3; Q2Qc 4]])
    by (split; [reflexivity | repeat constructor]).
  assert (HA : has_shape 2 2 [[Q2Qc 1; Q2Qc 0]; [Q2Qc 3; Q2Qc 0]])
    by (split; [reflexivity | repeat constructor]).
  destruct (statistics_entries (Arr1 []) 2 2 _ _ HF HA)
    as (st & Hrun & Hlf & Hlp & Hla & _).
  exists st. split; [exact Hrun|]. split; [exact Hlf|]. split; [exact Hlp|exact Hla].
Defined.







(** ** Signals that can be analysed *)







(** ** Dates *)

Lemma split_nonempty (sep : ascii) (s : string) : DataLoader.split sep s <> [].
Proof.
  destruct s as [|c s]; [discriminate|]. cbn [DataLoader.split].
  destruct (Ascii.eqb c sep); [discriminate|].
  destruct (DataLoader.split sep s); discriminate.
Qed.

Lemma split_length (sep : ascii) (s : string) :
  length (DataLoader.split sep s) = S (count_char sep s).
Proof.
  induction s as [|c s IH]; [reflexivity|].
  cbn [DataLoader.split count_char].
  destruct (Ascii.eqb c sep).
  - cbn [length]. rewrite IH. lia.
  - pose proof (split_nonempty sep s) as Hne.
    destruct (DataLoader.split sep s) as [|part parts]; [done|].
    cbn [length] in *. lia.
Qed.

Lemma split_free (sep : ascii) (s : string) :
  count_char sep s = 0 -> DataLoader.split sep s = [s].
Proof.
  induction s as [|c s IH]; [reflexivity|].
  cbn [DataLoader.split count_char].
  destruct (Ascii.eqb c sep); [cbn; lia|].
  intros Hs. by rewrite IH.
Qed.

Lemma split_app (sep : ascii) (a b : string) :
  count_char sep a = 0 ->
  DataLoader.split sep (a ++ String sep b) = a :: DataLoader.split sep b.
Proof.
  induction a as [|c a IH]; intros Ha.
  - change (DataLoader.split sep (String sep b)
            = EmptyString :: DataLoader.split sep b).
    cbn [DataLoader.split]. by rewrite Ascii.eqb_refl.
  - cbn [count_char] in Ha.
    change (DataLoader.split sep (String c (a ++ String sep b))
            = String c a :: DataLoader.split sep b).
    cbn [DataLoader.split].
    destruct (Ascii.eqb c sep); [cbn in Ha; lia|].
    by rewrite IH.
Qed.

Lemma split_parts_free (sep : ascii) (s : string) :
  Forall (fun part => count_char sep part = 0) (DataLoader.split sep s).
Proof.
  induction s as [|c s IH]; [by repeat constructor|].
  cbn [DataLoader.split]. destruct (Ascii.eqb c sep) eqn:Hc.
  - by constructor.
  - destruct (DataLoader.split sep s) as [|part parts]; [|].
    + repeat constructor. cbn. by rewrite Hc.
    + apply Forall_cons in IH as [Hpart Hparts]. constructor; [|done].
      cbn. by rewrite Hc.
Qed.

Lemma count_char_app (c : ascii) (a b : string) :
  count_char c (a ++ b) = count_char c a + count_char c b.
Proof.
  induction a as [|c' a IH]; [reflexivity|].
  change (count_char c (String c' (a ++ b))
          = count_char c (String c' a) + count_char c b).
  cbn [count_char]. rewrite IH. lia.
Qed.

Lemma split_iso_date (year month day : string) :
  count_char "-" year = 0 -> count_char "-" month = 0 ->
  count_char "-" day = 0 ->
  DataLoader.split "-" (iso_date year month day) = [year; month; day].
Proof.
  intros Hy Hm Hd. unfold iso_date.
  change (year ++ "-" ++ month ++ "-" ++ day)%string
    with (year ++ String "-" (month ++ String "-" day))%string.
  rewrite !split_app by done. by rewrite split_free.
Qed.

Lemma _format_dates_map (self : DataLoader.t) (dates : list string) :
  DataLoader._format_dates self dates = map (DataLoader.format_date self) dates.
Proof.
  unfold DataLoader._format_dates.
  assert (Hgen : forall acc,
             foldl (fun formatted date =>
                      formatted ++ [DataLoader.format_date self date]) acc dates
             = acc ++ map (DataLoader.format_date self) dates).
  { induction dates as [|d dates IH]; intros acc; cbn [foldl map].
    - by rewrite app_nil_r.
    - rewrite IH. by rewrite <- app_assoc. }
  apply (Hgen []).
Qed.

(** X20.  [_format_dates] returns one string per date, in order, and a
    date [year-month-day] whose three parts hold no dash becomes
    [Month day, year], the month being looked up in [date_formats] and
    kept as it is when it is no key. *)
Theorem iso_date_formatted (self : DataLoader.t) (dates : list string)
    (i : nat) (year month day : string) :
  count_char "-" year = 0 -> count_char "-" month = 0 ->
  count_char "-" day = 0 ->
  dates !! i = Some (iso_date year month day) ->
  length (DataLoader._format_dates self dates) = length dates
  /\ DataLoader._format_dates self dates !! i
     = Some (default month (DataLoader.date_formats self !! month)
             ++ " " ++ day ++ ", " ++ year)%string.
Proof.
  intros Hy Hm Hd Hi. rewrite _format_dates_map. split.
  - apply length_map.
  - change (map ?f dates) with (f <$> dates).
    rewrite list_lookup_fmap, Hi. cbn [fmap option_fmap option_map].
    unfold DataLoader.format_date. by rewrite split_iso_date.
Qed.

Lemma iso_date_formatted_witness :
  DataLoader._format_dates (DataLoader.__init__ "data")
    ["2021-10-06"; "2021-13-07"]%string !! 0%nat
  = Some "Oct 06, 2021"%string
  /\ DataLoader._format_dates (DataLoader.__init__ "data")
       ["2021-10-06"; "2021-13-07"]%string !! 1%nat
     = Some "13 07, 2021"%string.
Proof.
  split.
  - apply (iso_date_formatted (DataLoader.__init__ "data")
             ["2021-10-06"; "2021-13-07"]%string 0 "2021" "10" "06");
      reflexivity.
  - apply (iso_date_formatted (DataLoader.__init__ "data")
             ["2021-10-06"; "2021-13-07"]%string 1 "2021" "13" "07");
      reflexivity.
Defined.

(** X21.  A string that does not hold exactly two dashes is returned by
    [_format_dates] as it is. *)
Theorem other_dates_unchanged (self : DataLoader.t) (dates : list string)
    (i : nat) (date : string) :
  count_char "-" date <> 2 ->
  dates !! i = Some date ->
  DataLoader._format_dates self dates !! i = Some date.
Proof.
  intros Hcount Hi. rewrite _format_dates_map.
  change (map ?f dates) with (f <$> dates).
  rewrite list_lookup_fmap, Hi. cbn [fmap option_fmap option_map]. f_equal.
  unfold DataLoader.format_date.
  pose proof (split_length "-" date) as Hlen.
  destruct (DataLoader.split "-" date) as [|a [|b [|c [|d parts]]]];
    try reflexivity.
  cbn in Hlen. lia.
Qed.

Lemma other_dates_unchanged_witness :
  count_char "-" "2021/10/06" <> 2
  /\ DataLoader._format_dates (DataLoader.__init__ "data")
       ["2021-10-06"; "2021/10/06"]%string !! 1%nat
     = Some "2021/10/06"%string.
Proof.
  assert (H : count_char "-" "2021/10/06" <> 2) by (cbn; lia).
  split; [exact H|].
  apply (other_dates_unchanged (DataLoader.__init__ "data") _ 1 _ H).
  reflexivity.
Defined.

Lemma format_date_fixed (self : DataLoader.t) (date : string) :
  (forall month name, DataLoader.date_formats self !! month = Some name ->
     count_char "-" name = 0) ->
  count_char "-" (DataLoader.format_date self date) <> 2
  \/ DataLoader.format_date self date = date.
Proof.
  intros Hnames. unfold DataLoader.format_date.
  pose proof (split_parts_free "-" date) as Hfree.
  destruct (DataLoader.split "-" date) as [|y [|m [|d [|x parts]]]];
    try (by right).
  left.
  apply Forall_cons in Hfree as [Hy Hfree].
  apply Forall_cons in Hfree as [Hm Hfree].
  apply Forall_cons in Hfree as [Hd _].
  assert (Hname : count_char "-" (default m (DataLoader.date_formats self !! m))
                  = 0).
  { destruct (DataLoader.date_formats self !! m) as [name|] eqn:Hlook;
      [by eapply Hnames | done]. }
  rewrite !count_char_app, Hname, Hd, Hy. cbn. lia.
Qed.

(** X22.  When no month name of [date_formats] holds a dash, as in the
    table that the constructor builds, formatting is idempotent: formatted
    dates given to [_format_dates] again come back unchanged. *)
Theorem format_dates_idempotent (self : DataLoader.t) (dates : list string) :
  (forall month name, DataLoader.date_formats self !! month = Some name ->
     count_char "-" name = 0) ->
  DataLoader._format_dates self (DataLoader._format_dates self dates)
  = DataLoader._format_dates self dates.
Proof.
  intros Hnames. rewrite !_format_dates_map, map_map.
  apply map_ext. intros date.
  destruct (format_date_fixed self date Hnames) as [Hcount|Hsame].
  - set (formatted := DataLoader.format_date self date) in *.
    unfold DataLoader.format_date at 1.
    pose proof (split_length "-" formatted) as Hlen.
    destruct (DataLoader.split "-" formatted) as [|a [|b [|c [|d parts]]]];
      try reflexivity.
    cbn in Hlen. lia.
  - by rewrite !Hsame.
Qed.

Lemma init_month_names (data_path month name : string) :
  DataLoader.date_formats (DataLoader.__init__ data_path) !! month = Some name ->
  count_char "-" name = 0.
Proof.
  cbn [DataLoader.__init__ DataLoader.date_formats]. intros Hlook.
  apply elem_of_list_to_map_2 in Hlook.
  repeat (apply elem_of_cons in Hlook as [[= _ ->]|Hlook];
          [reflexivity|]).
  by apply elem_of_nil in Hlook.
Qed.

Lemma format_dates_idempotent_witness :
  DataLoader._format_dates (DataLoader.__init__ "data")
    (DataLoader._format_dates (DataLoader.__init__ "data")
       ["2021-10-06"; "a-b"; "2021-13-07"]%string)
  = DataLoader._format_dates (DataLoader.__init__ "data")
      ["2021-10-06"; "a-b"; "2021-13-07"]%string.
Proof.
  apply (format_dates_idempotent (DataLoader.__init__ "data")).
  apply init_month_names.
Defined.

(** ** Loading the data *)

Lemma seq_split_from (a n : nat) (seen rest : list nat) (x : nat) :
  seq a n = seen ++ x :: rest -> x = a + length seen /\ x < a + n.
Proof.
  intros H.
  assert (Hx : seq a n !! length seen = Some x).
  { rewrite H. by rewrite list_lookup_middle. }
  apply lookup_seq in Hx. lia.
Qed.

Lemma last_days_length {A B : Type} (days : Z) (x : list A) (y : list B) :
  length x = length y ->
  length (DataLoader.last_days days x) = length (DataLoader.last_days days y).
Proof.
  intros H. unfold DataLoader.last_days.
  destruct (0 <? days)%Z; rewrite !length_drop; lia.
Qed.

Lemma last_days_map {A B : Type} (f : A -> B) (days : Z) (x : list A) :
  DataLoader.last_days days (map f x) = map f (DataLoader.last_days days x).
Proof.
  unfold DataLoader.last_days. rewrite length_map.
  destruct (0 <? days)%Z; symmetry; apply (fmap_drop f).
Qed.

Section Loader.

Variable int : string -> outcome Z.
Variable self : DataLoader.t.
Variable rows : list (list string).

Lemma dates_loop (date : list string) :
  for_each (range 1 (length rows)) (DataLoader.date_step rows) [] = Returned date ->
  length date = length rows - 1.
Proof.
  intros Hrun.
  assert (H : length date = length (range 1 (length rows))).
  { revert Hrun. apply (for_each_invariant (fun seen d => length d = length seen)).
    - reflexivity.
    - intros seen x rest s s' _ Hs Hstep. unfold DataLoader.date_step in Hstep.
      destruct (DataLoader.field rows x 3) as [d|e]; [|discriminate].
      cbn in Hstep. injection Hstep as <-. rewrite !length_app. cbn. lia. }
  rewrite H. unfold range. by rewrite length_seq.
Qed.

Lemma foldr_add_app (x y : list Z) :
  foldr Z.add 0%Z (x ++ y) = (foldr Z.add 0 x + foldr Z.add 0 y)%Z.
Proof. induction x as [|a x IH]; cbn; [done|]. rewrite IH. lia. Qed.

Lemma cases_loop (st : list Z * list Z * list Z * list Z) :
  for_each (range 1 (length rows - 1)) (DataLoader.cases_step int rows)
    ([0%Z], [0%Z], [0%Z], [0%Z]) = Returned st ->
  cases_inv int rows (range 1 (length rows - 1)) st.
Proof.
  apply (for_each_invariant (cases_inv int rows)).
  - cbn. repeat split; try done.
    intros k ck c1 Hk H1 Hck. replace k with 1 in * by lia.
    rewrite H1 in Hck. injection Hck as <-. cbn. lia.
  - intros seen x rest [[[infect hosp] mild] severe] s' Hsplit
      (Hi & Hh & Hm & Hs & Hfirst & Hsum) Hstep.
    unfold range in Hsplit. apply seq_split_from in Hsplit as [-> _].
    unfold DataLoader.cases_step in Hstep.
    destruct (DataLoader.increase int rows (1 + length seen) 4) as [a|e] eqn:Ha;
      [|discriminate].
    destruct (DataLoader.increase int rows (1 + length seen) 5) as [b|e];
      [|discriminate].
    destruct (DataLoader.increase int rows (1 + length seen) 6) as [c|e];
      [|discriminate].
    destruct (DataLoader.increase int rows (1 + length seen) 7) as [d|e];
      [|discriminate].
    cbn in Hstep. injection Hstep as <-. unfold cases_inv.
    rewrite !length_app. cbn [length].
    repeat (split; [lia|]).
    unfold DataLoader.increase in Ha.
    fold (cumulative int rows (1 + length seen + 1)) in Ha.
    fold (cumulative int rows (1 + length seen)) in Ha.
    destruct (cumulative int rows (1 + length seen + 1)) as [after|e] eqn:Hafter;
      [|discriminate].
    destruct (cumulative int rows (1 + length seen)) as [before|e] eqn:Hbefore;
      [|discriminate].
    cbn in Ha. injection Ha as <-.
    split.
    { intros _. destruct seen as [|y seen]; [by exists before|].
      by apply Hfirst. }
    intros k ck c1 Hk H1 Hck.
    destruct (decide (k <= length infect)) as [Hle|Hgt].
    + rewrite take_app_le by done. apply Hsum; [lia|done|done].
    + assert (k = length infect + 1) as -> by lia.
      rewrite firstn_all2 by (rewrite length_app; cbn; lia).
      rewrite foldr_add_app. cbn [foldr].
      rewrite <- (firstn_all infect).
      rewrite (Hsum (length infect) before c1); [| lia | done |].
      * replace (length infect + 1) with (1 + length seen + 1) in Hck by lia.
        rewrite Hafter in Hck. injection Hck as <-. lia.
      * replace (length infect) with (1 + length seen) by lia. done.
Qed.

End Loader.

Lemma load_inversion (int : string -> outcome Z) (self : DataLoader.t)
    (rows : list (list string)) (tests : option (list (list string)))
    (days : Z) (data : DataLoader.data_t) :
  DataLoader.load_tokyo_covid_data int self rows tests days = Returned data ->
  exists date infect hosp mild severe test_num test_positive test_pos_rate,
    for_each (range 1 (length rows)) (DataLoader.date_step rows) []
    = Returned date
    /\ for_each (range 1 (length rows - 1)) (DataLoader.cases_step int rows)
         ([0%Z], [0%Z], [0%Z], [0%Z]) = Returned (infect, hosp, mild, severe)
    /\ DataLoader.load_tests int tests infect
       = Returned (test_num, test_positive, test_pos_rate)
    /\ data = {|
         DataLoader.dates := DataLoader.last_days days date;
         DataLoader.formatted_dates :=
           DataLoader.last_days days (DataLoader._format_dates self date);
         DataLoader.infections :=
           DataLoader.float_array (DataLoader.last_days days infect);
         DataLoader.hospitalizations :=
           DataLoader.float_array (DataLoader.last_days days hosp);
         DataLoader.mild_cases :=
           DataLoader.float_array (DataLoader.last_days days mild);
         DataLoader.severe_cases :=
           DataLoader.float_array (DataLoader.last_days days severe);
         DataLoader.test_positive :=
           DataLoader.float_array (DataLoader.last_days days test_positive);
         DataLoader.test_numbers :=
           DataLoader.float_array (DataLoader.last_days days test_num);
         DataLoader.positivity_rate := DataLoader.last_days days test_pos_rate
       |}.
Proof.
  unfold DataLoader.load_tokyo_covid_data. intros H.
  destruct (for_each (range 1 (length rows)) (DataLoader.date_step rows) [])
    as [date|e] eqn:Hdate; [|discriminate].
  cbn [mbind outcome_bind] in H.
  destruct (for_each (range 1 (length rows - 1))
              (DataLoader.cases_step int rows) ([0%Z], [0%Z], [0%Z], [0%Z]))
    as [[[[infect hosp] mild] severe]|e] eqn:Hcases; [|discriminate].
  cbn [mbind outcome_bind] in H.
  destruct (DataLoader.load_tests int tests infect) as [[[tn tp] rate]|e]
    eqn:Htests; [|discriminate].
  cbn [mbind outcome_bind] in H. injection H as <-.
  exists date, infect, hosp, mild, severe, tn, tp, rate.
  repeat split; done.
Qed.

(** X23.  When the file has a header and at least one row of data, the
    dates, the formatted dates and the four arrays of daily increases that
    [load_tokyo_covid_data] returns have one length, whatever [days]. *)
Theorem loaded_arrays_aligned (int : string -> outcome Z)
    (self : DataLoader.t) (rows : list (list string))
    (tests : option (list (list string))) (days : Z)
    (data : DataLoader.data_t) :
  DataLoader.load_tokyo_covid_data int self rows tests days = Returned data ->
  2 <= length rows ->
  length (DataLoader.formatted_dates data) = length (DataLoader.dates data)
  /\ length (DataLoader.infections data) = length (DataLoader.dates data)
  /\ length (DataLoader.hospitalizations data) = length (DataLoader.dates data)
  /\ length (DataLoader.mild_cases data) = length (DataLoader.dates data)
  /\ length (DataLoader.severe_cases data) = length (DataLoader.dates data).
Proof.
  intros Hload Hrows.
  apply load_inversion in Hload
    as (date & infect & hosp & mild & severe & tn & tp & rate
        & Hdate & Hcases & _ & ->).
  apply dates_loop in Hdate. apply cases_loop in Hcases.
  destruct Hcases as (Hi & Hh & Hm & Hs & _).
  unfold range in Hi, Hh, Hm, Hs. rewrite length_seq in Hi, Hh, Hm, Hs.
  cbn [DataLoader.dates DataLoader.formatted_dates DataLoader.infections
       DataLoader.hospitalizations DataLoader.mild_cases
       DataLoader.severe_cases].
  unfold DataLoader.float_array. rewrite !length_map.
  repeat split; apply last_days_length;
    rewrite ?_format_dates_map, ?length_map; lia.
Qed.

(** X24.  How many days [load_tokyo_covid_data] returns: for a positive
    [days] the last [days] of the file, or all of them when it has fewer;
    for [days = 0] all of them, not none; for a negative [days] all but the
    first [-days]. *)
Theorem days_returned (int : string -> outcome Z)
    (self : DataLoader.t) (rows : list (list string))
    (tests : option (list (list string))) (days : Z)
    (data : DataLoader.data_t) :
  DataLoader.load_tokyo_covid_data int self rows tests days = Returned data ->
  length (DataLoader.dates data)
  = if (0 <? days)%Z then Z.to_nat days `min` (length rows - 1)
    else length rows - 1 - Z.to_nat (- days).
Proof.
  intros Hload.
  apply load_inversion in Hload
    as (date & infect & hosp & mild & severe & tn & tp & rate
        & Hdate & _ & _ & ->).
  apply dates_loop in Hdate. cbn [DataLoader.dates].
  unfold DataLoader.last_days.
  destruct (0 <? days)%Z; rewrite length_drop; lia.
Qed.




Lemma loaded_arrays_aligned_witness :
  exists data,
    DataLoader.load_tokyo_covid_data digits_int (DataLoader.__init__ "data")
      sample_rows None 2 = Returned data
    /\ 2 <= length sample_rows
    /\ length (DataLoader.infections data) = length (DataLoader.dates data)
    /\ DataLoader.dates data = ["2021-10-05"; "2021-10-06"]%string.
Proof.
  eexists. split; [vm_compute; reflexivity|].
  assert (Hrows : 2 <= length sample_rows) by (cbn; lia).
  split; [exact Hrows|]. split; [|reflexivity].
  eapply (loaded_arrays_aligned digits_int (DataLoader.__init__ "data")
            sample_rows None 2); [vm_compute; reflexivity | exact Hrows].
Defined.

Lemma days_returned_witness :
  exists data,
    DataLoader.load_tokyo_covid_data digits_int (DataLoader.__init__ "data")
      sample_rows None 0 = Returned data
    /\ length (DataLoader.dates data)
       = (if (0 <? 0)%Z then Z.to_nat 0 `min` (length sample_rows - 1)
          else length sample_rows - 1 - Z.to_nat (- 0))
    /\ length (DataLoader.dates data) = 3.
Proof.
  eexists. split; [vm_compute; reflexivity|]. split; [|reflexivity].
  eapply (days_returned digits_int (DataLoader.__init__ "data")
            sample_rows None 0).
  vm_compute. reflexivity.
Defined.


Lemma last_days_replicate {A : Type} (days : Z) (n : nat) (x : A) :
  DataLoader.last_days days (replicate n x)
  = replicate (length (DataLoader.last_days days (replicate n x))) x.
Proof.
  unfold DataLoader.last_days.
  destruct (0 <? days)%Z; by rewrite !drop_replicate, !length_replicate.
Qed.

(** X26.  When the testing file is not there, the three testing arrays
    that [load_tokyo_covid_data] returns are zeros, as many as there are
    infections. *)
Theorem missing_tests_zeros (int : string -> outcome Z)
    (self : DataLoader.t) (rows : list (list string)) (days : Z)
    (data : DataLoader.data_t) :
  DataLoader.load_tokyo_covid_data int self rows None days = Returned data ->
  DataLoader.test_positive data
  = replicate (length (DataLoader.infections data)) 0%Qc
  /\ DataLoader.test_numbers data
     = replicate (length (DataLoader.infections data)) 0%Qc
  /\ DataLoader.positivity_rate data
     = replicate (length (DataLoader.infections data)) 0%Qc.
Proof.
  intros Hload.
  apply load_inversion in Hload
    as (date & infect & hosp & mild & severe & tn & tp & rate
        & _ & _ & Htests & ->).
  cbn [DataLoader.load_tests] in Htests. injection Htests as <- <- <-.
  cbn [DataLoader.test_positive DataLoader.test_numbers
       DataLoader.positivity_rate DataLoader.infections].
  unfold DataLoader.float_array. rewrite length_map.
  assert (Hz : forall (B : Type) (b : B),
             DataLoader.last_days days (replicate (length infect) b)
             = replicate (length (DataLoader.last_days days infect)) b).
  { intros B b. rewrite last_days_replicate. f_equal.
    apply last_days_length. by rewrite length_replicate. }
  rewrite !Hz.
  change (map ?f (replicate ?n ?x)) with (f <$> replicate n x).
  by rewrite fmap_replicate, Z2Qc_inj_0.
Qed.

Lemma missing_tests_zeros_witness :
  exists data,
    DataLoader.load_tokyo_covid_data digits_int (DataLoader.__init__ "data")
      sample_rows None 2 = Returned data
    /\ DataLoader.test_numbers data
       = replicate (length (DataLoader.infections data)) 0%Qc
    /\ length (DataLoader.infections data) = 2.
Proof.
  eexists. split; [vm_compute; reflexivity|]. split; [|reflexivity].
  eapply (missing_tests_zeros digits_int (DataLoader.__init__ "data")
            sample_rows 2).
  vm_compute. reflexivity.
Defined.

(** X27.  The formatted dates that [load_tokyo_covid_data] returns are the
    dates it returns, formatted: cutting to the last [days] and formatting
    can be exchanged. *)
Theorem formatted_dates_follow (int : string -> outcome Z)
    (self : DataLoader.t) (rows : list (list string))
    (tests : option (list (list string))) (days : Z)
    (data : DataLoader.data_t) :
  DataLoader.load_tokyo_covid_data int self rows tests days = Returned data ->
  DataLoader.formatted_dates data
  = DataLoader._format_dates self (DataLoader.dates data).
Proof.
  intros Hload.
  apply load_inversion in Hload
    as (date & infect & hosp & mild & severe & tn & tp & rate
        & _ & _ & _ & ->).
  cbn [DataLoader.formatted_dates DataLoader.dates].
  rewrite !_format_dates_map. apply last_days_map.
Qed.

Lemma formatted_dates_follow_witness :
  exists data,
    DataLoader.load_tokyo_covid_data digits_int (DataLoader.__init__ "data")
      sample_rows (Some sample_tests) 2 = Returned data
    /\ DataLoader.formatted_dates data
       = DataLoader._format_dates (DataLoader.__init__ "data")
           (DataLoader.dates data)
    /\ DataLoader.formatted_dates data = ["Oct 05, 2021"; "Oct 06, 2021"]%string.
Proof.
  eexists. split; [vm_compute; reflexivity|]. split; [|reflexivity].
  eapply (formatted_dates_follow digits_int (DataLoader.__init__ "data")
            sample_rows (Some sample_tests) 2).
  vm_compute. reflexivity.
Defined.

Lemma tests_loop (int : string -> outcome Z) (rows : list (list string))
    (st : list Z * list Z * list Qc) :
  for_each (range 1 (length rows)) (DataLoader.tests_step int rows) ([], [], [])
  = Returned st ->
  tests_inv int rows (range 1 (length rows)).
Proof.
  apply (for_each_invariant (fun seen _ => tests_inv int rows seen)).
  - intros x s Hin. by apply elem_of_nil in Hin.
  - intros seen x rest [[tn tp] rate] s' _ Hseen Hstep y s Hin Hfield Hzero.
    apply elem_of_app in Hin as [Hin|Hin]; [by apply (Hseen y)|].
    apply list_elem_of_singleton in Hin as ->.
    unfold DataLoader.tests_step in Hstep.
    destruct (DataLoader.int_field int rows x 4) as [p|e]; [|discriminate].
    cbn [mbind outcome_bind] in Hstep.
    destruct (DataLoader.int_field int rows x 6) as [n|e] eqn:Hn; [|discriminate].
    cbn [mbind outcome_bind] in Hstep.
    rewrite Hfield in Hstep. cbn [mbind outcome_bind] in Hstep.
    destruct (String.eqb s "0") eqn:Hs; [by apply String.eqb_eq in Hs|].
    exfalso. unfold DataLoader.int_field in Hn.
    rewrite Hfield in Hn. cbn [mbind outcome_bind] in Hn.
    rewrite Hzero in Hn. injection Hn as <-.
    unfold py_div in Hstep. rewrite Z2Qc_inj_0 in Hstep.
    rewrite bool_decide_eq_true_2 in Hstep by done.
    discriminate Hstep.
Qed.

(** X28.  The guard of the positivity rate compares the text of the number
    of tests with ["0"]: a row of the testing file whose number of tests
    reads as zero but is written otherwise makes [load_tokyo_covid_data]
    raise (the division by zero, unless an earlier field has raised). *)
Theorem zero_tests_must_read_0 (int : string -> outcome Z)
    (self : DataLoader.t) (rows trows : list (list string)) (days : Z)
    (i : nat) (s : string) :
  1 <= i < length trows ->
  DataLoader.field trows i 6 = Returned s ->
  s <> "0"%string -> int s = Returned 0%Z ->
  exists e,
    DataLoader.load_tokyo_covid_data int self rows (Some trows) days = Raised e.
Proof.
  intros Hi Hfield Hs Hzero.
  destruct (DataLoader.load_tokyo_covid_data int self rows (Some trows) days)
    as [data|e] eqn:Hload; [|eauto].
  exfalso. apply Hs.
  apply load_inversion in Hload
    as (date & infect & hosp & mild & severe & tn & tp & rate
        & _ & _ & Htests & _).
  cbn [DataLoader.load_tests] in Htests. apply tests_loop in Htests.
  apply (Htests i s); [|done|done].
  apply elem_of_range. lia.
Qed.

Lemma zero_tests_must_read_0_witness :
  1 <= 2 < length sample_tests_00
  /\ DataLoader.field sample_tests_00 2 6 = Returned "00"%string
  /\ digits_int "00" = Returned 0%Z
  /\ DataLoader.load_tokyo_covid_data digits_int (DataLoader.__init__ "data")
       sample_rows (Some sample_tests_00) 2 = Raised ZeroDivisionError
  /\ exists e,
       DataLoader.load_tokyo_covid_data digits_int (DataLoader.__init__ "data")
         sample_rows (Some sample_tests_00) 2 = Raised e.
Proof.
  assert (Hi : 1 <= 2 < length sample_tests_00) by (cbn; lia).
  split; [exact Hi|]. split; [reflexivity|]. split; [reflexivity|].
  split; [vm_compute; reflexivity|].
  apply (zero_tests_must_read_0 digits_int (DataLoader.__init__ "data")
           sample_rows sample_tests_00 2 2 "00" Hi eq_refl);
    [discriminate | reflexivity].
Defined.
